(** * netcanv [contrib/run.py]: the host/joiner test harness

    A shallow embedding of the script that builds netcanv, starts one
    [host-room] process, watches its stderr for announced room IDs and
    starts one [join-room] process per announced room.

    Python values are modelled as follows.
    - [str] is a list of Unicode code points ([Z]); [bytes] is a list of
      [Byte.byte].
    - Exceptions are an inductive type [exn]; fallible code returns
      [result].
    - The asyncio event loop is a labelled transition system on [world]:
      a label runs one coroutine from one [await] to the next, or lets a
      child process exit.  A schedule is a list of labels. *)

From Stdlib Require Import ZArith Lia.
From stdpp Require Import base list numbers strings.

Local Open Scope Z_scope.

(** ** Python strings *)

Abbreviation str := (list Z) (only parsing).
Abbreviation bytes := (list Byte.byte) (only parsing).

(** An ASCII literal as a [str]. *)
Definition lit (s : string) : str :=
  (fun a => Z.of_N (Ascii.N_of_ascii a)) <$> String.list_ascii_of_string s.

(** An ASCII literal as [bytes]. *)
Definition blit (s : string) : bytes := String.list_byte_of_string s.

Definition nl : str := [10].
Definition space : Z := 32.

Module Py.

(** [s.startswith(prefix)] *)
Fixpoint startswith (s prefix : str) : bool :=
  match prefix, s with
  | [], _ => true
  | _ :: _, [] => false
  | p :: prefix', c :: s' => (p =? c) && startswith s' prefix'
  end.

(** [s.find(sub)], counting from position [i]: the lowest index at which
    [sub] occurs, or [-1]. *)
Fixpoint find_from (s sub : str) (i : Z) : Z :=
  if startswith s sub then i
  else match s with
       | [] => -1
       | _ :: s' => find_from s' sub (i + 1)
       end.

Definition find (s sub : str) : Z := find_from s sub 0.

(** Cut [s] around the first occurrence of [sep]. *)
Fixpoint partition (s sep : str) : option (str * str) :=
  if startswith s sep then Some ([], drop (length sep) s)
  else match s with
       | [] => None
       | c :: s' =>
           match partition s' sep with
           | Some (before, after) => Some (c :: before, after)
           | None => None
           end
       end.

(** [s.split(sep, maxsplit)] for a non-empty [sep] and [maxsplit >= 0]. *)
Fixpoint split (s sep : str) (maxsplit : nat) : list str :=
  match maxsplit with
  | O => [s]
  | S n =>
      match partition s sep with
      | Some (before, after) => before :: split after sep n
      | None => [s]
      end
  end.

(** Code points for which [str.isspace] holds: the set [str.strip()]
    removes. *)
Definition isspace (c : Z) : bool :=
  ((9 <=? c) && (c <=? 13)) || ((28 <=? c) && (c <=? 32))
  || (c =? 0x85) || (c =? 0xA0) || (c =? 0x1680)
  || ((0x2000 <=? c) && (c <=? 0x200A))
  || (c =? 0x2028) || (c =? 0x2029) || (c =? 0x202F)
  || (c =? 0x205F) || (c =? 0x3000).

Fixpoint lstrip (s : str) : str :=
  match s with
  | [] => []
  | c :: s' => if isspace c then lstrip s' else s
  end.

Definition rstrip (s : str) : str := reverse (lstrip (reverse s)).

(** [s.strip()] *)
Definition strip (s : str) : str := rstrip (lstrip s).

(** [s.ljust(width)]: pad with spaces on the right. *)
Definition ljust (s : str) (width : nat) : str :=
  s ++ replicate (width - length s)%nat space.

(** ** [bytes.decode()]: strict UTF-8 *)

Definition byte_val (b : Byte.byte) : Z := Z.of_N (Byte.to_N b).

Definition between (lo hi : Z) (b : Byte.byte) : bool :=
  (lo <=? byte_val b) && (byte_val b <=? hi).

(** Payload of a continuation byte. *)
Definition low6 (b : Byte.byte) : Z := Z.land (byte_val b) 0x3F.

Fixpoint decode_utf8 (data : bytes) : option str :=
  match data with
  | [] => Some []
  | b0 :: r0 =>
      let x0 := byte_val b0 in
      if x0 <? 0x80 then cons x0 <$> decode_utf8 r0
      else if (0xC2 <=? x0) && (x0 <=? 0xDF) then
        match r0 with
        | b1 :: r1 =>
            if between 0x80 0xBF b1
            then cons (Z.lor (Z.shiftl (Z.land x0 0x1F) 6) (low6 b1))
                   <$> decode_utf8 r1
            else None
        | _ => None
        end
      else if (0xE0 <=? x0) && (x0 <=? 0xEF) then
        match r0 with
        | b1 :: b2 :: r2 =>
            let lo := if x0 =? 0xE0 then 0xA0 else 0x80 in
            let hi := if x0 =? 0xED then 0x9F else 0xBF in
            if between lo hi b1 && between 0x80 0xBF b2
            then cons (Z.lor (Z.shiftl (Z.land x0 0x0F) 12)
                         (Z.lor (Z.shiftl (low6 b1) 6) (low6 b2)))
                   <$> decode_utf8 r2
            else None
        | _ => None
        end
      else if (0xF0 <=? x0) && (x0 <=? 0xF4) then
        match r0 with
        | b1 :: b2 :: b3 :: r3 =>
            let lo := if x0 =? 0xF0 then 0x90 else 0x80 in
            let hi := if x0 =? 0xF4 then 0x8F else 0xBF in
            if between lo hi b1 && between 0x80 0xBF b2
               && between 0x80 0xBF b3
            then cons (Z.lor (Z.shiftl (Z.land x0 0x07) 18)
                         (Z.lor (Z.shiftl (low6 b1) 12)
                            (Z.lor (Z.shiftl (low6 b2) 6) (low6 b3))))
                   <$> decode_utf8 r3
            else None
        | _ => None
        end
      else None
  end.

End Py.

(** ** Constants of the script *)

Definition ESC : Z := 27.
Definition HOST_COLOR : str := ESC :: lit "[94m".
Definition CLIENT_COLOR : str := ESC :: lit "[93m".
Definition ENDC : str := ESC :: lit "[0m".

Definition debug_path : str := lit "./target/debug/netcanv".
Definition release_path : str := lit "./target/release/netcanv".

(** The marker of a room announcement and the marker of the room ID. *)
Definition room_marker : str := lit "got free room ID".
Definition id_marker : str := lit "r:".

(** ** Exceptions and the effect monad *)

Inductive exn :=
| UnicodeDecodeError   (* [bytes.decode] on malformed UTF-8 *)
| IndexError           (* list index out of range *)
| AttributeError       (* attribute access on [None] *)
| OSError.             (* the executable could not be started *)

Inductive result (A : Type) :=
| Ok (a : A)
| Raise (e : exn).
Arguments Ok {A} a.
Arguments Raise {A} e.

(** Who performs an operation: the script's top level, the [run_host]
    coroutine, or the [run_client] task with the given index. *)
Inductive actor :=
| Main
| Host
| Client (tid : nat).

(** The operations the script performs on the outside world. *)
Inductive op :=
| OpRun (cmd : list str)                  (* [subprocess.run] *)
| OpExec (cmd : list str) (pid : nat)     (* [asyncio.create_subprocess_exec] *)
| OpReadline (pid : nat) (data : bytes)   (* [stderr.readline] and what it returned *)
| OpPrint (text : str)                    (* [print] *)
| OpDetect (line : str)                   (* [line] is examined for a room ID *)
| OpCreateTask (tid : nat) (room_id : str) (* [asyncio.create_task(run_client(id))] *)
| OpGather (tasks : list nat).            (* [asyncio.gather] is called on [tasks] *)

(** A child process: its command line, the bytes it has still to deliver on
    its captured stderr ([None] when stderr is not captured) and whether it
    has exited. *)
Record proc := Proc {
  p_cmd : list str;
  p_stderr : option bytes;
  p_exited : bool;
}.

(** Where the [run_client] coroutine of a task stands.  [room_id] is the
    coroutine's argument and [client] the process it started; both are kept
    once the coroutine is over, as a record of what the task did. *)
Inductive client_pc :=
| CStart (room_id : str)
| CLoop (room_id : str) (client : nat)
| CReturned (room_id : str) (client : nat)
| CRaised (room_id : str) (client : option nat) (e : exn).

(** Where the [run_host] coroutine stands, with its locals. *)
Inductive host_pc :=
| HStart
| HLoop (host : nat) (tasks : list nat)
| HGather (tasks : list nat)
| HReturned
| HRaised (e : exn).

Record world := World {
  executable_path : str;            (* the module-level global *)
  current : actor;                  (* the coroutine that is running *)
  procs : list proc;                (* child processes, by pid *)
  loop_tasks : list client_pc;      (* tasks of the event loop, by index *)
  host_task : host_pc;              (* the coroutine given to [asyncio.run] *)
  trace : list (actor * op);        (* operations so far, oldest first *)
}.

Definition set_executable_path (x : str) (w : world) : world :=
  World x (current w) (procs w) (loop_tasks w) (host_task w) (trace w).
Definition set_current (a : actor) (w : world) : world :=
  World (executable_path w) a (procs w) (loop_tasks w) (host_task w) (trace w).
Definition set_procs (ps : list proc) (w : world) : world :=
  World (executable_path w) (current w) ps (loop_tasks w) (host_task w) (trace w).
Definition set_loop_tasks (ts : list client_pc) (w : world) : world :=
  World (executable_path w) (current w) (procs w) ts (host_task w) (trace w).
Definition set_host_task (h : host_pc) (w : world) : world :=
  World (executable_path w) (current w) (procs w) (loop_tasks w) h (trace w).
Definition emit (o : op) (w : world) : world :=
  World (executable_path w) (current w) (procs w) (loop_tasks w) (host_task w)
    (trace w ++ [(current w, o)]).

(** Everything written to the console, in order. *)
Definition printed (t : list (actor * op)) : str :=
  concat (omap (fun e => match e.2 with OpPrint s => Some s | _ => None end) t).
Definition stdout (w : world) : str := printed (trace w).

(** Command lines of the processes started so far, in order. *)
Definition launched (w : world) : list (list str) := p_cmd <$> procs w.

Definition M (A : Type) : Type := world -> result A * world.

Definition ret {A} (a : A) : M A := fun w => (Ok a, w).
Definition bind {A B} (m : M A) (k : A -> M B) : M B :=
  fun w => match m w with
           | (Ok a, w') => k a w'
           | (Raise e, w') => (Raise e, w')
           end.

Notation "'let*' x ':=' m 'in' k" := (bind m (fun x => k))
  (at level 10, x name, m at level 100, k at level 200).
Notation "m ';;' k" := (bind m (fun _ => k))
  (at level 100, k at level 200, right associativity).

Definition lift {A} (r : result A) : M A := fun w => (r, w).

(** [l[i]] *)
Definition getitem {A} (l : list A) (i : nat) : result A :=
  match l !! i with
  | Some x => Ok x
  | None => Raise IndexError
  end.

(** [data.decode()] *)
Definition decode (data : bytes) : result str :=
  match Py.decode_utf8 data with
  | Some s => Ok s
  | None => Raise UnicodeDecodeError
  end.

(** [print(text, end=end_)] *)
Definition print (text end_ : str) : M unit :=
  fun w => (Ok tt, emit (OpPrint (text ++ end_)) w).

(** <<
    def log(who: str, color: str, line: str):
        print(f"{color}{who.ljust(8)}{ENDC} {line}", end="")
    >> *)
Definition log (who color line : str) : M unit :=
  print (color ++ Py.ljust who 8 ++ ENDC ++ [space] ++ line) [].

(** The room announcement test and the extraction of the room ID, as
    [run_host] does them on one line:
    <<
    if line.find("got free room ID") != -1:
        id = line.split("r:", 1)[1].strip()
    >>
    [Ok None]: the line announces nothing. *)
Definition find_room_id (line : str) : result (option str) :=
  if negb (Py.find line room_marker =? -1) then
    match getitem (Py.split line id_marker 1) 1 with
    | Ok part => Ok (Some (Py.strip part))
    | Raise e => Raise e
    end
  else Ok None.

(** What [StreamReader.readline] takes from the buffered data: up to and
    including the first newline, or all that is left at end of stream (the
    empty bytes once nothing is left).  The reader's length limit is not
    modelled. *)
Fixpoint take_line (buf : bytes) : bytes * bytes :=
  match buf with
  | [] => ([], [])
  | b :: rest =>
      if Py.byte_val b =? 10 then ([b], rest)
      else let '(line, rest') := take_line rest in (b :: line, rest')
  end.

(** [asyncio.create_task(run_client(room_id))]: the task is registered with
    the event loop and runs later. *)
Definition create_task (room_id : str) : M nat :=
  fun w =>
    let tid := length (loop_tasks w) in
    (Ok tid, emit (OpCreateTask tid room_id)
               (set_loop_tasks (loop_tasks w ++ [CStart room_id]) w)).

(** The host's look at one line, recorded in the trace when it starts. *)
Definition detect (line : str) : M (option str) :=
  fun w => (find_room_id line, emit (OpDetect line) w).

(** [proc.stderr is not None] *)
Definition has_stderr (pid : nat) : M bool :=
  fun w => (Ok (match procs w !! pid with
                | Some p => bool_decide (is_Some (p_stderr p))
                | None => false
                end), w).

(** [await proc.stderr.readline()] *)
Definition readline (pid : nat) : M bytes :=
  fun w =>
    match procs w !! pid with
    | Some (Proc cmd (Some buf) exited) =>
        let '(line, rest) := take_line buf in
        (Ok line, emit (OpReadline pid line)
                    (set_procs (<[pid := Proc cmd (Some rest) exited]> (procs w)) w))
    | _ => (Raise AttributeError, w)
    end.

(** What [asyncio.gather] finds when it looks at its tasks: the exception
    of a task that raised (of the first one in the list, when several have),
    [Ok] when all have returned, [None] while it has to wait. *)
Fixpoint gather_poll (pcs : list client_pc) : option (result unit) :=
  match pcs with
  | [] => Some (Ok tt)
  | CRaised _ _ e :: _ => Some (Raise e)
  | CReturned _ _ :: rest => gather_poll rest
  | _ :: rest =>
      match gather_poll rest with
      | Some (Raise e) => Some (Raise e)
      | _ => None
      end
  end.

Definition gather (tasks : list nat) (w : world) : option (result unit) :=
  gather_poll (omap (fun t => loop_tasks w !! t) tasks).

Inductive label :=
| RunHost                 (* resume [run_host] up to its next [await] *)
| RunClient (tid : nat)   (* resume a [run_client] task up to its next [await] *)
| ProcExit (pid : nat).   (* a child process exits; the script never looks *)

Section Harness.

(** The outside world: the exit status of the build command, and what a
    started process writes to its stderr, by pid and command line ([None]:
    the executable cannot be started). *)
Variable build : list str -> Z.
Variable env : nat -> list str -> option bytes.

(** [subprocess.run(cmd)]: runs to completion, returns the exit status. *)
Definition subprocess_run (cmd : list str) : M Z :=
  fun w => (Ok (build cmd), emit (OpRun cmd) w).

(** [await asyncio.create_subprocess_exec( *cmd, stdout=PIPE, stderr=PIPE)] *)
Definition create_subprocess_exec (cmd : list str) : M nat :=
  fun w =>
    let pid := length (procs w) in
    match env pid cmd with
    | Some data =>
        (Ok pid, emit (OpExec cmd pid)
                   (set_procs (procs w ++ [Proc cmd (Some data) false]) w))
    | None => (Raise OSError, w)
    end.

(** [run_client], from one [await] to the next. *)
Definition run_client (pc : client_pc) : M client_pc :=
  match pc with
  | CStart room_id =>
      fun w =>
        let cmd := [executable_path w; lit "join-room"; lit "-r"; room_id] in
        (let* client := create_subprocess_exec cmd in
         let* captured := has_stderr client in
         if captured then ret (CLoop room_id client)
         else ret (CReturned room_id client)) w
  | CLoop room_id client =>
      let* data := readline client in
      let* line := lift (decode data) in
      if bool_decide (line = []) then ret (CReturned room_id client)
      else
        log (lit "CLIENT") CLIENT_COLOR line;;
        ret (CLoop room_id client)
  | _ => ret pc
  end.

(** [run_host], from one [await] to the next.  The call of
    [asyncio.gather] follows the loop without an [await] in between; its
    completion is a step of its own (see [step]). *)
Definition run_host (pc : host_pc) : M host_pc :=
  match pc with
  | HStart =>
      fun w =>
        let tasks := [] in
        let cmd := [executable_path w; lit "host-room"] in
        (let* host := create_subprocess_exec cmd in
         let* captured := has_stderr host in
         if captured then ret (HLoop host tasks)
         else
           print (lit "stderr is None") nl;;
           fun w => (Ok (HGather tasks), emit (OpGather tasks) w)) w
  | HLoop host tasks =>
      let* data := readline host in
      let* line := lift (decode data) in
      if bool_decide (line = []) then
        fun w => (Ok (HGather tasks), emit (OpGather tasks) w)
      else
        log (lit "HOST") HOST_COLOR line;;
        let* found := detect line in
        match found with
        | Some id =>
            let* t := create_task id in
            ret (HLoop host (tasks ++ [t]))
        | None => ret (HLoop host tasks)
        end
  | _ => ret pc
  end.

Definition host_outcome (r : result host_pc) : host_pc :=
  match r with
  | Ok pc => pc
  | Raise e => HRaised e
  end.

Definition client_outcome (pc : client_pc) (r : result client_pc) : client_pc :=
  match r, pc with
  | Ok pc', _ => pc'
  | Raise e, CStart room_id => CRaised room_id None e
  | Raise e, CLoop room_id client => CRaised room_id (Some client) e
  | Raise e, _ => pc
  end.

Definition host_over (w : world) : bool :=
  match host_task w with
  | HReturned | HRaised _ => true
  | _ => false
  end.

(** One step of the event loop.  [None]: the label is not enabled.  A task
    can be resumed whatever the state of [run_host]: when [run_host] is
    over, the steps of tasks that the loop has scheduled already still run
    before [asyncio.run] cancels what is left.  Which of them these are is
    the loop's business; here every task may go on. *)
Definition step (l : label) (w : world) : option world :=
  match l with
  | RunHost =>
      match host_task w with
      | HReturned | HRaised _ => None
      | HGather tasks =>
          match gather tasks w with
          | Some (Ok _) => Some (set_host_task HReturned w)
          | Some (Raise e) => Some (set_host_task (HRaised e) w)
          | None => None
          end
      | pc =>
          let '(r, w') := run_host pc (set_current Host w) in
          Some (set_host_task (host_outcome r) w')
      end
  | RunClient tid =>
      match loop_tasks w !! tid with
      | Some (CStart _ as pc) | Some (CLoop _ _ as pc) =>
          let '(r, w') := run_client pc (set_current (Client tid) w) in
          Some (set_loop_tasks (<[tid := client_outcome pc r]> (loop_tasks w')) w')
      | _ => None
      end
  | ProcExit pid =>
      match procs w !! pid with
      | Some (Proc cmd err false) =>
          Some (set_procs (<[pid := Proc cmd err true]> (procs w)) w)
      | _ => None
      end
  end.

Fixpoint exec (sched : list label) (w : world) : option world :=
  match sched with
  | [] => Some w
  | l :: sched' =>
      match step l w with
      | Some w' => exec sched' w'
      | None => None
      end
  end.

Definition initial : world := World debug_path Main [] [] HStart [].

(** The script's top level up to [asyncio.run]; [rest] is what
    [parser.parse_known_args()] leaves over.
    <<
    if len(rest) > 0 and rest[0] == "--": rest = rest[1:]
    if "--release" in rest: executable_path = "./target/release/netcanv"
    subprocess.run(["cargo", "build", *rest])
    >> *)
Definition main (rest : list str) : M unit :=
  let rest :=
    match rest with
    | r0 :: rest' => if bool_decide (r0 = lit "--") then rest' else rest
    | [] => rest
    end in
  (if bool_decide (lit "--release" ∈ rest)
   then fun w => (Ok tt, set_executable_path release_path w)
   else ret tt);;
  subprocess_run ([lit "cargo"; lit "build"] ++ rest);;
  ret tt.

(** The whole script under a schedule for [asyncio.run(run_host())]. *)
Definition harness (rest : list str) (sched : list label) : option world :=
  exec sched (main rest initial).2.

Definition reachable (rest : list str) (w : world) : Prop :=
  exists sched, harness rest sched = Some w.

(** The exit status of the script once [asyncio.run] is over: 0 when
    [run_host] returned, 1 when it raised. *)
Definition exit_status (w : world) : option Z :=
  match host_task w with
  | HReturned => Some 0
  | HRaised _ => Some 1
  | _ => None
  end.

End Harness.

(** ** Specification vocabulary *)

(** [sub] occurs in [s]. *)
Definition occurs (sub s : str) : Prop :=
  exists before after, s = before ++ sub ++ after.

(** [s] is cut by [before] and [after] around the first occurrence of
    [sep]. *)
Definition first_cut (sep s before after : str) : Prop :=
  s = before ++ sep ++ after /\
  forall before' after', s = before' ++ sep ++ after' ->
    (length before <= length before')%nat.

(** [t] is [s] without its leading and trailing whitespace. *)
Definition trimmed_of (s t : str) : Prop :=
  exists l r, s = l ++ t ++ r /\
    Forall (fun c => Py.isspace c = true) l /\
    Forall (fun c => Py.isspace c = true) r /\
    (forall c t', t = c :: t' -> Py.isspace c = false) /\
    (forall c t', t = t' ++ [c] -> Py.isspace c = false).


(** The claim of the specification about the room ID: the text after the
    first [r:] that follows the announcement marker, trimmed. *)
Definition spec_room_id (line tok : str) : Prop :=
  exists pre rest before after,
    first_cut room_marker line pre rest /\
    first_cut id_marker rest before after /\
    trimmed_of after tok.

(** A world in which the host process has been started and is about to
    deliver [data] on its stderr. *)
Definition demo_line_world (data : bytes) : world :=
  World debug_path Main [Proc [debug_path; lit "host-room"] (Some data) false] []
    (HLoop 0 []) [].

(** ** The run of the host, as a specification *)

(** The operations of [run_host] in a trace, in order. *)
Definition host_ops (t : list (actor * op)) : list op :=
  omap (fun e => match e.1 with Host => Some e.2 | _ => None end) t.

(** The successive results of [readline] on a stream, up to its end. *)
Fixpoint lines_of (buf : bytes) : list bytes :=
  match buf with
  | [] => []
  | b :: rest =>
      if Py.byte_val b =? 10 then [b] :: lines_of rest
      else match lines_of rest with
           | [] => [[b]]
           | line :: lines => (b :: line) :: lines
           end
  end.

(** The task lists [gather] has been called on. *)
Definition gathers (ops : list op) : list (list nat) :=
  omap (fun o => match o with OpGather ts => Some ts | _ => None end) ops.

Definition host_cmd (exe : str) : list str := [exe; lit "host-room"].
Definition join_cmd (exe room_id : str) : list str :=
  [exe; lit "join-room"; lit "-r"; room_id].

Definition host_log (line : str) : str :=
  HOST_COLOR ++ lit "HOST    " ++ ENDC ++ [space] ++ line.

(** What [run_host] does on the lines of its process, in order, when [n]
    tasks exist already: per line the read, the logging, the look for a
    room ID and, for an announcement, the creation of a task; it stops at
    the first exception; at the end of the stream it calls [gather]. *)
Fixpoint host_script (host : nat) (lines : list bytes) (n : nat) : list op :=
  match lines with
  | [] => [OpReadline host []; OpGather (seq 0 n)]
  | data :: lines' =>
      OpReadline host data ::
      match decode data with
      | Raise _ => []
      | Ok line =>
          OpPrint (host_log line) :: OpDetect line ::
          match find_room_id line with
          | Raise _ => []
          | Ok None => host_script host lines' n
          | Ok (Some id) => OpCreateTask n id :: host_script host lines' (S n)
          end
      end
  end.

(** The room IDs [run_host] finds on the lines of its process, up to the
    first exception. *)
Fixpoint announced (lines : list bytes) : list str :=
  match lines with
  | [] => []
  | data :: lines' =>
      match decode data with
      | Raise _ => []
      | Ok line =>
          match find_room_id line with
          | Raise _ => []
          | Ok None => announced lines'
          | Ok (Some id) => id :: announced lines'
          end
      end
  end.

Definition room_of (pc : client_pc) : str :=
  match pc with
  | CStart r | CLoop r _ | CReturned r _ | CRaised r _ _ => r
  end.

Definition rooms (w : world) : list str := room_of <$> loop_tasks w.

(** The process a task has started, if any. *)
Definition client_of (pc : client_pc) : option nat :=
  match pc with
  | CStart _ => None
  | CLoop _ c | CReturned _ c => Some c
  | CRaised _ c _ => c
  end.

(** Command lines of the processes the tasks have started. *)
Fixpoint joiner_cmds (exe : str) (ts : list client_pc) : list (list str) :=
  match ts with
  | [] => []
  | pc :: ts' =>
      match client_of pc with
      | Some _ => join_cmd exe (room_of pc) :: joiner_cmds exe ts'
      | None => joiner_cmds exe ts'
      end
  end.

Definition returned (pc : client_pc) : Prop :=
  exists room_id client, pc = CReturned room_id client.

Definition captured (p : proc) : Prop := is_Some (p_stderr p).
Definition drained (p : proc) : Prop := p_stderr p = Some [].

Section Invariant.

Variable env : nat -> list str -> option bytes.
Variable exe : str.

(** Everything [run_host] will do, from what its process writes. *)
Definition full_script : list op :=
  match env 0%nat (host_cmd exe) with
  | Some data => OpExec (host_cmd exe) 0 :: host_script 0 (lines_of data) 0
  | None => []
  end.

Definition all_rooms : list str :=
  match env 0%nat (host_cmd exe) with
  | Some data => announced (lines_of data)
  | None => []
  end.

Definition host_drained (w : world) : Prop :=
  exists p, procs w !! 0%nat = Some p /\ p_cmd p = host_cmd exe /\ drained p.

Definition inv_host (w : world) : Prop :=
  match host_task w with
  | HStart =>
      procs w = [] /\ loop_tasks w = [] /\ host_ops (trace w) = []
  | HLoop host tasks =>
      host = 0%nat /\ tasks = seq 0 (length (loop_tasks w)) /\
      gathers (host_ops (trace w)) = [] /\
      exists buf exited,
        procs w !! 0%nat = Some (Proc (host_cmd exe) (Some buf) exited) /\
        host_ops (trace w) ++ host_script 0 (lines_of buf) (length (loop_tasks w))
          = full_script /\
        rooms w ++ announced (lines_of buf) = all_rooms
  | HGather tasks =>
      tasks = seq 0 (length (loop_tasks w)) /\ host_drained w /\
      host_ops (trace w) = full_script /\ rooms w = all_rooms /\
      gathers (host_ops (trace w)) = [tasks]
  | HReturned =>
      Forall returned (loop_tasks w) /\ host_drained w /\
      host_ops (trace w) = full_script /\ rooms w = all_rooms /\
      gathers (host_ops (trace w)) = [seq 0 (length (loop_tasks w))]
  | HRaised e =>
      host_ops (trace w) = full_script /\ rooms w = all_rooms /\
      (gathers (host_ops (trace w)) = [] \/
       gathers (host_ops (trace w)) = [seq 0 (length (loop_tasks w))])
  end.

Definition inv_task (w : world) (pc : client_pc) : Prop :=
  match pc with
  | CLoop _ client =>
      (1 <= client)%nat /\ exists p, procs w !! client = Some p /\ captured p
  | CReturned _ client =>
      exists p, procs w !! client = Some p /\ drained p
  | _ => True
  end.

Record inv (w : world) : Prop := Inv {
  inv_exe : executable_path w = exe;
  inv_h : inv_host w;
  inv_t : Forall (inv_task w) (loop_tasks w);
  inv_first : loop_tasks w <> [] -> procs w <> [];
  inv_launched : drop 1 (launched w) ≡ₚ joiner_cmds exe (loop_tasks w);
}.

End Invariant.

(** Processes are only ever added, read from, or marked as exited. *)
Definition procs_le (ps ps' : list proc) : Prop :=
  forall i p, ps !! i = Some p ->
    exists p', ps' !! i = Some p' /\ p_cmd p' = p_cmd p /\
      (captured p -> captured p') /\ (drained p -> drained p').

(** A task that is over, one way or the other. *)
Definition resolved (pc : client_pc) : Prop :=
  match pc with
  | CReturned _ _ | CRaised _ _ _ => True
  | _ => False
  end.

(** [run_host] has left its read loop. *)
Definition left_loop (w : world) : bool :=
  match host_task w with
  | HStart | HLoop _ _ => false
  | _ => true
  end.

(** The order the specification claims for one line: the look for a room
    ID comes right before the logging. *)
Definition detect_before_log (ops : list op) : Prop :=
  forall i line, ops !! S i = Some (OpPrint (host_log line)) ->
    ops !! i = Some (OpDetect line).

(** ** Sample runs *)

Definition nlb : bytes := [Byte.x0a].

(** A build that fails (101 is cargo's exit status for a failed build). *)
Definition failing_build (cmd : list str) : Z := 101.

(** A host that announces rooms [A1] and [B2]; every joiner writes one
    line. *)
Definition two_rooms_env (pid : nat) (cmd : list str) : option bytes :=
  match pid with
  | O => Some (blit "listening" ++ nlb ++ blit "got free room ID r: A1 " ++ nlb
               ++ blit "got free room ID r:B2" ++ nlb)
  | _ => Some (blit "joined" ++ nlb)
  end.

Definition two_rooms_sched : list label :=
  [RunHost; RunHost; RunHost; RunClient 0; RunHost; RunHost; RunClient 1;
   RunClient 1; RunClient 0; RunClient 1; RunClient 0; RunHost].

(** A host that announces room [A1] and then writes the marker without a
    room ID. *)
Definition broken_announcement_env (pid : nat) (cmd : list str) : option bytes :=
  match pid with
  | O => Some (blit "got free room ID r: A1" ++ nlb ++ blit "got free room ID" ++ nlb)
  | _ => Some (blit "joined" ++ nlb)
  end.

(** A host that announces room [A1] and then writes a byte that is not
    UTF-8. *)
Definition bad_bytes_env (pid : nat) (cmd : list str) : option bytes :=
  match pid with
  | O => Some (blit "got free room ID r: A1" ++ nlb ++ [Byte.xff] ++ nlb)
  | _ => Some (blit "joined" ++ nlb)
  end.





(** ** What a step may add to the trace and to the processes *)

Definition client_log (line : str) : str :=
  CLIENT_COLOR ++ lit "CLIENT  " ++ ENDC ++ [space] ++ line.

(** The operations each actor may perform: the top level none once the
    event loop runs; a task only starts its process, reads from it and logs
    lines under the label [CLIENT]; the host logs under the label [HOST]
    and never runs a command to completion. *)
Definition well_labelled (e : actor * op) : Prop :=
  match e with
  | (Main, _) => False
  | (Host, OpPrint s) => exists line, line <> [] /\ s = host_log line
  | (Host, OpRun _) => False
  | (Host, _) => True
  | (Client _, OpPrint s) => exists line, line <> [] /\ s = client_log line
  | (Client _, OpExec _ _) | (Client _, OpReadline _ _) => True
  | (Client _, _) => False
  end.

(** The processes a step may start: none, the host as the very first, or
    one joiner after the host. *)
Definition launch_step (exe : str) (before after : list (list str)) : Prop :=
  after = before \/
  (before = [] /\ after = [host_cmd exe]) \/
  (before <> [] /\ exists room_id, after = before ++ [join_cmd exe room_id]).

(** ** Forgetting which processes have exited *)

Definition forget_exit (p : proc) : proc := Proc (p_cmd p) (p_stderr p) false.

Definition forget_exits (w : world) : world :=
  set_procs (forget_exit <$> procs w) w.

Fixpoint without_exits (sched : list label) : list label :=
  match sched with
  | [] => []
  | ProcExit _ :: sched' => without_exits sched'
  | l :: sched' => l :: without_exits sched'
  end.

(** A computation that does not depend on which processes have exited. *)
Definition blind {A} (m : M A) : Prop :=
  forall w, m (forget_exits w) = ((m w).1, forget_exits (m w).2).

(** How often a schedule resumes [run_host]. *)
Fixpoint host_steps (sched : list label) : nat :=
  match sched with
  | [] => 0
  | RunHost :: sched' => S (host_steps sched')
  | _ :: sched' => host_steps sched'
  end.

(** ** The run of a joiner, as a specification *)

(** The operations of the task [tid] in a trace, in order. *)
Definition client_ops (tid : nat) (t : list (actor * op)) : list op :=
  omap (fun e => match e.1 with
                 | Client t' => if decide (t' = tid) then Some e.2 else None
                 | _ => None
                 end) t.

(** What [run_client] does on the lines of its process, in order: per line
    the read and the logging; it stops at the first line that cannot be
    decoded, and after the read that finds the end of the stream. *)
Fixpoint client_script (pid : nat) (lines : list bytes) : list op :=
  match lines with
  | [] => [OpReadline pid []]
  | data :: lines' =>
      OpReadline pid data ::
      match decode data with
      | Raise _ => []
      | Ok line => OpPrint (client_log line) :: client_script pid lines'
      end
  end.

Section Relay.

Variable env : nat -> list str -> option bytes.
Variable exe : str.

Definition relay_task (w : world) (tid : nat) (pc : client_pc) : Prop :=
  match pc with
  | CStart _ | CRaised _ None _ => client_ops tid (trace w) = []
  | CLoop r pid =>
      exists data buf exited,
        env pid (join_cmd exe r) = Some data /\
        procs w !! pid = Some (Proc (join_cmd exe r) (Some buf) exited) /\
        client_ops tid (trace w) ++ client_script pid (lines_of buf)
          = OpExec (join_cmd exe r) pid :: client_script pid (lines_of data)
  | CReturned r pid | CRaised r (Some pid) _ =>
      exists data,
        env pid (join_cmd exe r) = Some data /\
        client_ops tid (trace w)
          = OpExec (join_cmd exe r) pid :: client_script pid (lines_of data)
  end.

Record relay (w : world) : Prop := Relay {
  relay_tasks : forall tid pc, loop_tasks w !! tid = Some pc -> relay_task w tid pc;
  relay_fresh : forall tid, (length (loop_tasks w) <= tid)%nat ->
                  client_ops tid (trace w) = [];
  relay_distinct : forall tid1 tid2 r1 r2 pid,
      loop_tasks w !! tid1 = Some (CLoop r1 pid) ->
      loop_tasks w !! tid2 = Some (CLoop r2 pid) -> tid1 = tid2;
}.

End Relay.

(** * Properties *)

(** ** The string operations *)

Example find_ex1 : Py.find (lit "abcabc") (lit "ca") = 2.
Proof. reflexivity. Qed.
Example find_ex2 : Py.find (lit "abcabc") (lit "cb") = -1.
Proof. reflexivity. Qed.
Example split_ex1 : Py.split (lit "a r: b r: c") id_marker 1 = [lit "a "; lit " b r: c"].
Proof. reflexivity. Qed.
Example strip_ex1 : Py.strip (lit "  ABC 1 " ++ nl) = lit "ABC 1".
Proof. reflexivity. Qed.
Example decode_ex1 : Py.decode_utf8 [Byte.xe2; Byte.x82; Byte.xac] = Some [0x20AC].
Proof. reflexivity. Qed.
Example decode_ex2 : Py.decode_utf8 [Byte.xc0; Byte.x80] = None.
Proof. reflexivity. Qed.

Lemma startswith_spec (s p : str) :
  Py.startswith s p = true <-> exists post, s = p ++ post.
Proof.
  revert s. induction p as [|c p IH]; intros [|d s]; simpl.
  - split; [intros _; exists []; reflexivity | reflexivity].
  - split; [intros _; exists (d :: s); reflexivity | reflexivity].
  - split; [discriminate | intros [post H]; discriminate].
  - rewrite andb_true_iff, Z.eqb_eq, IH. split.
    + intros [-> [post ->]]. eauto.
    + intros [post H]. injection H as -> ->. eauto.
Qed.

Lemma occurs_cons (sub : str) (c : Z) (s : str) :
  occurs sub (c :: s) <-> Py.startswith (c :: s) sub = true \/ occurs sub s.
Proof.
  split.
  - intros [[|b before] [after H]].
    + left. apply startswith_spec. eauto.
    + right. injection H as -> ->. exists before, after. done.
  - intros [H | [before [after ->]]].
    + apply startswith_spec in H as [post H]. exists [], post. done.
    + exists (c :: before), after. done.
Qed.

Lemma occurs_nil (sub : str) :
  occurs sub [] <-> Py.startswith [] sub = true.
Proof.
  split.
  - intros [before [after H]]. symmetry in H.
    apply app_eq_nil in H as [-> H]. apply app_eq_nil in H as [-> ->]. done.
  - intros H. apply startswith_spec in H as [post H]. exists [], post. done.
Qed.

Lemma find_from_spec (s sub : str) (i : Z) :
  0 <= i ->
  (occurs sub s -> i <= Py.find_from s sub i) /\
  (~ occurs sub s -> Py.find_from s sub i = -1).
Proof.
  revert i. induction s as [|c s IH]; intros i Hi; cbn [Py.find_from].
  - destruct (Py.startswith [] sub) eqn:E.
    + split; [intros; lia | intros H; exfalso; apply H, occurs_nil, E].
    + split; [intros H; apply occurs_nil in H; congruence | done].
  - destruct (Py.startswith (c :: s) sub) eqn:E.
    + split; [intros; lia | intros H; exfalso; apply H, occurs_cons; auto].
    + destruct (IH (i + 1)) as [IH1 IH2]; [lia|]. split.
      * intros H. apply occurs_cons in H as [H|H]; [congruence|].
        specialize (IH1 H). lia.
      * intros H. apply IH2. intros H'. apply H, occurs_cons. auto.
Qed.

Lemma find_none_iff (s sub : str) :
  Py.find s sub = -1 <-> ~ occurs sub s.
Proof.
  destruct (find_from_spec s sub 0) as [H1 H2]; [lia|]. unfold Py.find. split.
  - intros E Hocc. specialize (H1 Hocc). lia.
  - exact H2.
Qed.

Lemma startswith_drop (s p : str) :
  Py.startswith s p = true -> s = p ++ drop (length p) s.
Proof.
  intros H. apply startswith_spec in H as [post ->].
  by rewrite drop_app_length.
Qed.

Lemma partition_spec (s sep : str) :
  match Py.partition s sep with
  | Some (before, after) => first_cut sep s before after
  | None => ~ occurs sep s
  end.
Proof.
  induction s as [|c s IH]; cbn [Py.partition].
  - destruct (Py.startswith [] sep) eqn:E.
    + split; [by apply startswith_drop | intros; simpl; lia].
    + intros H. apply occurs_nil in H. congruence.
  - destruct (Py.startswith (c :: s) sep) eqn:E.
    + split; [by apply startswith_drop | intros; simpl; lia].
    + destruct (Py.partition s sep) as [[before after]|].
      * destruct IH as [-> Hmin]. split; [done|].
        intros [|b before'] after' H.
        -- assert (Py.startswith (c :: before ++ sep ++ after) sep = true)
             by (apply startswith_spec; eauto). congruence.
        -- injection H as -> H. simpl. apply Hmin in H. lia.
      * intros H. apply occurs_cons in H as [H|H]; [congruence | done].
Qed.

Lemma lstrip_spec (s : str) :
  exists l, s = l ++ Py.lstrip s /\
    Forall (fun c => Py.isspace c = true) l /\
    (forall c t', Py.lstrip s = c :: t' -> Py.isspace c = false).
Proof.
  induction s as [|c s (l & Hs & Hl & Hh)]; simpl.
  - exists []. split_and!; [done | constructor | discriminate].
  - destruct (Py.isspace c) eqn:E.
    + exists (c :: l). split_and!; [simpl; congruence | by constructor | done].
    + exists []. split_and!; [done | constructor |].
      intros c' t' H. injection H as -> _. done.
Qed.


Lemma strip_spec (s : str) : trimmed_of s (Py.strip s).
Proof.
  unfold Py.strip, Py.rstrip.
  destruct (lstrip_spec s) as (l & Hs & Hl & Hh).
  destruct (lstrip_spec (reverse (Py.lstrip s))) as (r & Hr & Hrs & Hrh).
  apply (f_equal reverse) in Hr.
  rewrite reverse_involutive, reverse_app in Hr.
  exists l, (reverse r). split_and!.
  - congruence.
  - done.
  - by apply Forall_reverse.
  - intros c t' E. rewrite E in Hr. eapply Hh. exact Hr.
  - intros c t' E. apply (Hrh c (reverse t')).
    apply (inj reverse). by rewrite E, reverse_cons, reverse_involutive.
Qed.

Lemma partition_first_cut (s sep before after : str) :
  Py.partition s sep = Some (before, after) -> first_cut sep s before after.
Proof. intros H. pose proof (partition_spec s sep) as P. by rewrite H in P. Qed.

Lemma first_cut_unique (sep s b1 a1 b2 a2 : str) :
  first_cut sep s b1 a1 -> first_cut sep s b2 a2 -> b1 = b2 /\ a1 = a2.
Proof.
  intros [E1 M1] [E2 M2].
  pose proof (M1 _ _ E2). pose proof (M2 _ _ E1).
  rewrite E1 in E2. apply app_inj_1 in E2 as [-> E2]; [|lia].
  apply app_inv_head in E2. done.
Qed.

Lemma split_once_first_cut (sep s before after : str) :
  first_cut sep s before after -> Py.split s sep 1 = [before; after].
Proof.
  intros H. pose proof (partition_spec s sep) as P. simpl.
  destruct (Py.partition s sep) as [[b a]|].
  - destruct (first_cut_unique _ _ _ _ _ _ P H) as [-> ->]. done.
  - destruct H as [-> _]. exfalso. apply P. by eexists _, _.
Qed.

Lemma split_once_absent (sep s : str) :
  ~ occurs sep s -> Py.split s sep 1 = [s].
Proof.
  intros H. pose proof (partition_spec s sep) as P. simpl.
  destruct (Py.partition s sep) as [[b a]|]; [|done].
  destruct P as [-> _]. exfalso. apply H. by eexists _, _.
Qed.

Lemma find_room_id_no_marker (line : str) :
  ~ occurs room_marker line -> find_room_id line = Ok None.
Proof.
  intros H. apply find_none_iff in H. unfold find_room_id. by rewrite H.
Qed.

Lemma find_room_id_marker (line : str) :
  occurs room_marker line ->
  find_room_id line =
    match getitem (Py.split line id_marker 1) 1 with
    | Ok part => Ok (Some (Py.strip part))
    | Raise e => Raise e
    end.
Proof.
  intros H. unfold find_room_id.
  destruct (Z.eqb_spec (Py.find line room_marker) (-1)) as [E|E]; [|done].
  apply find_none_iff in E. done.
Qed.

(** One iteration of the loop of [run_host], spelled out. *)
Lemma run_host_loop_eq env w host tasks cmd buf exited data rest :
  procs w !! host = Some (Proc cmd (Some buf) exited) ->
  take_line buf = (data, rest) ->
  run_host env (HLoop host tasks) w =
    let w1 := emit (OpReadline host data)
                (set_procs (<[host := Proc cmd (Some rest) exited]> (procs w)) w) in
    match decode data with
    | Raise e => (Raise e, w1)
    | Ok line =>
        if bool_decide (line = []) then (Ok (HGather tasks), emit (OpGather tasks) w1)
        else
          let w2 := emit (OpDetect line)
                      (emit (OpPrint (HOST_COLOR ++ Py.ljust (lit "HOST") 8 ++ ENDC
                                        ++ [space] ++ line)) w1) in
          match find_room_id line with
          | Raise e => (Raise e, w2)
          | Ok None => (Ok (HLoop host tasks), w2)
          | Ok (Some id) =>
              (Ok (HLoop host (tasks ++ [length (loop_tasks w)])),
               emit (OpCreateTask (length (loop_tasks w)) id)
                 (set_loop_tasks (loop_tasks w ++ [CStart id]) w2))
          end
    end.
Proof.
  intros Hp Ht. unfold run_host, bind, readline, lift. rewrite Hp, Ht. cbn zeta.
  destruct (decode data) as [line|e]; [|done].
  case_bool_decide; [done|].
  unfold log, print, detect. rewrite app_nil_r. cbn beta iota.
  destruct (find_room_id line) as [[id|]|e]; done.
Qed.

Lemma strip_trimmed (s t : str) : Py.strip s = t -> trimmed_of s t.
Proof. intros <-. apply strip_spec. Qed.

(** ** The room ID *)

(** C1, as the code has it: on a line with the announcement marker, the room
    ID is the text after the first [r:] of the whole line, trimmed of
    surrounding whitespace; the line of the specification's example gives
    [ABC123]. *)
Theorem C1_room_id_after_first_id_marker (line before after : str) :
  occurs room_marker line ->
  first_cut id_marker line before after ->
  find_room_id line = Ok (Some (Py.strip after)) /\
  trimmed_of after (Py.strip after) /\
  find_room_id (lit "... got free room ID r: ABC123 " ++ nl) = Ok (Some (lit "ABC123")).
Proof.
  intros Hm Hcut. split_and!.
  - rewrite find_room_id_marker by done.
    by rewrite (split_once_first_cut _ _ _ _ Hcut).
  - apply strip_spec.
  - reflexivity.
Qed.

Lemma C1_room_id_after_first_id_marker_witness :
  let line := lit "peer: got free room ID r: 42 r: 7" ++ nl in
  occurs room_marker line /\
  first_cut id_marker line (lit "pee") (lit " got free room ID r: 42 r: 7" ++ nl) /\
  find_room_id line = Ok (Some (lit "got free room ID r: 42 r: 7")).
Proof.
  intros line.
  assert (Hm : occurs room_marker line) by (by exists (lit "peer: "), (lit " r: 42 r: 7" ++ nl)).
  assert (Hc : first_cut id_marker line (lit "pee") (lit " got free room ID r: 42 r: 7" ++ nl))
    by (apply partition_first_cut; reflexivity).
  split_and!; [done | done |].
  exact (proj1 (C1_room_id_after_first_id_marker line _ _ Hm Hc)).
Defined.

(** C1 as stated fails: with an [r:] before the marker, the code takes the
    text after that one, not after the first [r:] that follows the marker. *)
Lemma C1_counterexample :
  ~ (forall line tok, spec_room_id line tok -> find_room_id line = Ok (Some tok)).
Proof.
  intros H.
  specialize (H (lit "r: X got free room ID r: Y" ++ nl) (lit "Y")).
  assert (find_room_id (lit "r: X got free room ID r: Y" ++ nl)
          = Ok (Some (lit "X got free room ID r: Y"))) as E by reflexivity.
  rewrite E in H. 
  assert (Ok (Some (lit "X got free room ID r: Y")) = Ok (Some (lit "Y")) -> False)
    as D by (vm_compute; discriminate).
  apply D, H.
  exists (lit "r: X "), (lit " r: Y" ++ nl), (lit " "), (lit " Y" ++ nl).
  split_and!.
  - apply partition_first_cut. reflexivity.
  - apply partition_first_cut. reflexivity.
  - apply strip_trimmed. reflexivity.
Qed.

Lemma printed_app (t1 t2 : list (actor * op)) :
  printed (t1 ++ t2) = printed t1 ++ printed t2.
Proof. unfold printed. by rewrite omap_app, concat_app. Qed.

Lemma launched_insert (w : world) (pid : nat) (p q : proc) :
  procs w !! pid = Some p -> p_cmd q = p_cmd p ->
  p_cmd <$> <[pid := q]> (procs w) = launched w.
Proof.
  intros Hp Hc. unfold launched. rewrite list_fmap_insert, Hc.
  apply list_insert_id. by rewrite list_lookup_fmap, Hp.
Qed.

(** ** The announcement test *)

(** C7: a line without the announcement marker is no match; the host's loop
    creates no task and starts no process for it. *)
Theorem C7_no_marker_no_joiner (line : str) :
  ~ occurs room_marker line ->
  find_room_id line = Ok None /\
  forall env w host tasks cmd buf exited data rest,
    host_task w = HLoop host tasks ->
    procs w !! host = Some (Proc cmd (Some buf) exited) ->
    take_line buf = (data, rest) ->
    decode data = Ok line ->
    exists w', step env RunHost w = Some w' /\
      loop_tasks w' = loop_tasks w /\
      launched w' = launched w /\
      (host_task w' = HLoop host tasks \/ host_task w' = HGather tasks).
Proof.
  intros Hm. pose proof (find_room_id_no_marker line Hm) as Hf. split; [done|].
  intros env w host tasks cmd buf exited data rest Hh Hp Ht Hd.
  unfold step. rewrite Hh.
  rewrite (run_host_loop_eq env (set_current Host w) host tasks cmd buf exited data rest Hp Ht).
  cbn zeta. rewrite Hd, Hf.
  case_bool_decide; eexists; (split; [reflexivity|]); simpl;
    (split_and!; [done | by eapply launched_insert | auto]).
Qed.

Lemma C7_no_marker_no_joiner_witness :
  let line := lit "listening on port 62137" ++ nl in
  let w := demo_line_world (blit "listening on port 62137" ++ [Byte.x0a]) in
  ~ occurs room_marker line /\
  find_room_id line = Ok None /\
  exists w', step (fun _ _ => None) RunHost w = Some w' /\ loop_tasks w' = [].
Proof.
  intros line w.
  assert (Hm : ~ occurs room_marker line) by (apply find_none_iff; reflexivity).
  destruct (C7_no_marker_no_joiner line Hm) as [Hf Hs].
  split_and!; [done | done |].
  destruct (Hs (fun _ _ => None) w 0%nat [] _ _ _ _ _ eq_refl eq_refl eq_refl eq_refl)
    as (w' & Hw' & Ht & _).
  exists w'. done.
Defined.

(** ** A marker without a room ID *)

(** C8: on a line with the announcement marker and no [r:], the indexing
    [split("r:", 1)[1]] raises [IndexError]; [run_host] ends with that
    exception and reads no further line. *)
Theorem C8_marker_without_id_raises (line : str) :
  occurs room_marker line ->
  ~ occurs id_marker line ->
  Py.split line id_marker 1 = [line] /\
  find_room_id line = Raise IndexError /\
  forall env w host tasks cmd buf exited data rest,
    host_task w = HLoop host tasks ->
    procs w !! host = Some (Proc cmd (Some buf) exited) ->
    take_line buf = (data, rest) ->
    decode data = Ok line ->
    exists w', step env RunHost w = Some w' /\
      host_task w' = HRaised IndexError /\
      loop_tasks w' = loop_tasks w /\
      step env RunHost w' = None.
Proof.
  intros Hm Hid.
  pose proof (split_once_absent _ _ Hid) as Hs.
  assert (Hf : find_room_id line = Raise IndexError)
    by (by rewrite find_room_id_marker, Hs).
  split_and!; [done | done |].
  intros env w host tasks cmd buf exited data rest Hh Hp Ht Hd.
  unfold step at 1. rewrite Hh.
  rewrite (run_host_loop_eq env (set_current Host w) host tasks cmd buf exited data rest Hp Ht).
  cbn zeta. rewrite Hd, Hf.
  case_bool_decide as Hnil.
  - subst line. exfalso. destruct Hm as (b & a & E).
    symmetry in E. apply app_eq_nil in E as [_ E]. discriminate.
  - eexists. split; [reflexivity|]. done.
Qed.

Lemma C8_marker_without_id_raises_witness :
  let line := lit "got free room ID" ++ nl in
  let w := demo_line_world (blit "got free room ID" ++ [Byte.x0a]) in
  occurs room_marker line /\ ~ occurs id_marker line /\
  find_room_id line = Raise IndexError /\
  exists w', step (fun _ _ => None) RunHost w = Some w' /\
    host_task w' = HRaised IndexError.
Proof.
  intros line w.
  assert (Hm : occurs room_marker line) by (by exists [], nl).
  assert (Hid : ~ occurs id_marker line) by (apply find_none_iff; reflexivity).
  destruct (C8_marker_without_id_raises line Hm Hid) as (_ & Hf & Hs).
  split_and!; [done | done | done |].
  destruct (Hs (fun _ _ => None) w 0%nat [] _ _ _ _ _ eq_refl eq_refl eq_refl eq_refl)
    as (w' & Hw' & Hh & _).
  exists w'. done.
Defined.

(** ** The logger *)

(** C10: [log] writes the color, the label padded with spaces on the right
    to 8 characters, the reset code [ESC [0m], one space and the line as it
    is, and nothing after it. *)
Theorem C10_log_format (who color line : str) (w : world) :
  let label := who ++ replicate (8 - length who) space in
  let text := color ++ label ++ [27; 91; 48; 109] ++ [space] ++ line in
  log who color line w = (Ok tt, emit (OpPrint text) w) /\
  stdout (log who color line w).2 = stdout w ++ text /\
  length label = (8 `max` length who)%nat /\
  forall body, line = body ++ nl ->
    stdout (log who color line w).2
    = stdout w ++ color ++ label ++ [27; 91; 48; 109] ++ [space] ++ body ++ nl.
Proof.
  intros label text.
  assert (E : log who color line w = (Ok tt, emit (OpPrint text) w)).
  { unfold log, print, Py.ljust. rewrite app_nil_r.
    subst text label. by rewrite <- !app_assoc. }
  assert (S : stdout (log who color line w).2 = stdout w ++ text).
  { rewrite E. unfold stdout. simpl. rewrite printed_app.
    unfold printed. simpl. by rewrite app_nil_r. }
  split_and!; [done | done | |].
  - subst label. rewrite length_app, length_replicate. lia.
  - intros body ->. rewrite S. done.
Qed.

(** ** Streams and decoding *)

Lemma decode_utf8_nil (data : bytes) :
  Py.decode_utf8 data = Some [] -> data = [].
Proof.
  destruct data as [|b0 r0]; [done|]. simpl.
  repeat case_match; try discriminate;
    match goal with
    | |- cons ?x <$> ?o = Some [] -> _ => destruct o; discriminate
    end.
Qed.

Lemma decode_nil (data : bytes) : decode data = Ok [] -> data = [].
Proof.
  unfold decode. destruct (Py.decode_utf8 data) as [s|] eqn:E; [|discriminate].
  intros H. injection H as ->. by apply decode_utf8_nil.
Qed.


Lemma lines_of_take_line (buf : bytes) :
  buf <> [] -> lines_of buf = (take_line buf).1 :: lines_of (take_line buf).2.
Proof.
  induction buf as [|b rest IH]; [done|]. intros _. simpl.
  destruct (Py.byte_val b =? 10); [done|].
  destruct rest as [|b' rest']; [done|].
  rewrite IH by done. destruct (take_line (b' :: rest')). done.
Qed.

Lemma host_ops_app (t1 t2 : list (actor * op)) :
  host_ops (t1 ++ t2) = host_ops t1 ++ host_ops t2.
Proof. apply omap_app. Qed.

Lemma host_log_eq (line : str) :
  HOST_COLOR ++ Py.ljust (lit "HOST") 8 ++ ENDC ++ [space] ++ line = host_log line.
Proof. reflexivity. Qed.

(** ** The coroutines, step by step *)

Lemma run_host_start_eq env w :
  procs w = [] ->
  run_host env HStart w =
    match env 0%nat (host_cmd (executable_path w)) with
    | Some data =>
        (Ok (HLoop 0 []),
         emit (OpExec (host_cmd (executable_path w)) 0)
           (set_procs [Proc (host_cmd (executable_path w)) (Some data) false] w))
    | None => (Raise OSError, w)
    end.
Proof.
  intros Hp. unfold run_host, bind, create_subprocess_exec, has_stderr.
  rewrite Hp. simpl. fold (host_cmd (executable_path w)).
  destruct (env 0%nat (host_cmd (executable_path w))); done.
Qed.

Lemma run_client_start_eq env w room_id :
  run_client env (CStart room_id) w =
    let cmd := join_cmd (executable_path w) room_id in
    let pid := length (procs w) in
    match env pid cmd with
    | Some data =>
        (Ok (CLoop room_id pid),
         emit (OpExec cmd pid) (set_procs (procs w ++ [Proc cmd (Some data) false]) w))
    | None => (Raise OSError, w)
    end.
Proof.
  unfold run_client, bind, create_subprocess_exec, has_stderr. cbn zeta.
  fold (join_cmd (executable_path w) room_id).
  destruct (env _ _); [|done]. simpl.
  rewrite list_lookup_middle by done. done.
Qed.

Lemma run_client_loop_eq env w room_id client cmd buf exited data rest :
  procs w !! client = Some (Proc cmd (Some buf) exited) ->
  take_line buf = (data, rest) ->
  run_client env (CLoop room_id client) w =
    let w1 := emit (OpReadline client data)
                (set_procs (<[client := Proc cmd (Some rest) exited]> (procs w)) w) in
    match decode data with
    | Raise e => (Raise e, w1)
    | Ok line =>
        if bool_decide (line = []) then (Ok (CReturned room_id client), w1)
        else (Ok (CLoop room_id client),
              emit (OpPrint (CLIENT_COLOR ++ Py.ljust (lit "CLIENT") 8 ++ ENDC
                               ++ [space] ++ line)) w1)
    end.
Proof.
  intros Hp Ht. unfold run_client, bind, readline, lift. rewrite Hp, Ht. cbn zeta.
  destruct (decode data) as [line|e]; [|done].
  case_bool_decide; [done|].
  unfold log, print. by rewrite app_nil_r.
Qed.

(** ** The result of [gather] *)

Lemma gather_poll_ok (pcs : list client_pc) :
  gather_poll pcs = Some (Ok tt) <-> Forall returned pcs.
Proof.
  induction pcs as [|pc pcs IH]; simpl.
  - split; [constructor | done].
  - destruct pc; rewrite ?Forall_cons; unfold returned at 1.
    + destruct (gather_poll pcs) as [[|]|]; split; try done; intros [(? & ? & ?) _]; done.
    + destruct (gather_poll pcs) as [[|]|]; split; try done; intros [(? & ? & ?) _]; done.
    + rewrite IH. split; [by eauto | by intros [_ ?]].
    + split; [done | intros [(? & ? & ?) _]; done].
Qed.

Lemma gather_poll_raised (pcs : list client_pc) room_id client e :
  CRaised room_id client e ∈ pcs -> exists e', gather_poll pcs = Some (Raise e').
Proof.
  induction pcs as [|pc pcs IH]; [by intros ?%elem_of_nil|].
  intros [<-|Hin]%elem_of_cons; simpl; [by eauto|].
  destruct (IH Hin) as [e' ->]. destruct pc; eauto.
Qed.

Lemma omap_lookup_seq_app {A} (l1 l2 : list A) :
  omap (fun t => (l1 ++ l2) !! t) (seq (length l1) (length l2)) = l2.
Proof.
  revert l1. induction l2 as [|x l2 IH]; intros l1; [done|]. simpl.
  rewrite list_lookup_middle by done. f_equal.
  specialize (IH (l1 ++ [x])).
  rewrite <- app_assoc, length_app, Nat.add_1_r in IH. done.
Qed.

Lemma omap_lookup_seq {A} (l : list A) :
  omap (fun t => l !! t) (seq 0 (length l)) = l.
Proof. apply (omap_lookup_seq_app [] l). Qed.

(** ** Frame lemmas for the invariant *)

Lemma take_line_nil_inv (buf rest : bytes) :
  take_line buf = ([], rest) -> buf = [] /\ rest = [].
Proof.
  destruct buf as [|b r]; simpl; [by intros [= <-]|].
  destruct (Py.byte_val b =? 10); [done|]. destruct (take_line r). done.
Qed.

Lemma take_line_drained (data rest : bytes) :
  take_line [] = (data, rest) -> data = [] /\ rest = [].
Proof. by intros [= <- <-]. Qed.

Lemma procs_le_readline ps pid cmd buf exited data rest :
  ps !! pid = Some (Proc cmd (Some buf) exited) ->
  take_line buf = (data, rest) ->
  procs_le ps (<[pid := Proc cmd (Some rest) exited]> ps).
Proof.
  intros Hp Ht i p Hi. destruct (decide (i = pid)) as [->|Hne].
  - rewrite Hp in Hi. injection Hi as <-.
    rewrite list_lookup_insert_eq by (by eapply lookup_lt_Some).
    eexists. split_and!; [done | done | by eexists |].
    unfold drained. simpl. intros [= ->].
    apply take_line_drained in Ht as [_ ->]. done.
  - rewrite list_lookup_insert_ne by done. eauto.
Qed.

Lemma procs_le_exit ps pid cmd err :
  ps !! pid = Some (Proc cmd err false) ->
  procs_le ps (<[pid := Proc cmd err true]> ps).
Proof.
  intros Hp i p Hi. destruct (decide (i = pid)) as [->|Hne].
  - rewrite Hp in Hi. injection Hi as <-.
    rewrite list_lookup_insert_eq by (by eapply lookup_lt_Some).
    eexists. done.
  - rewrite list_lookup_insert_ne by done. eauto.
Qed.

Lemma procs_le_app ps p : procs_le ps (ps ++ [p]).
Proof.
  intros i q Hi. rewrite lookup_app_l by (by eapply lookup_lt_Some). eauto.
Qed.

Lemma inv_task_mono w w' pc :
  procs_le (procs w) (procs w') -> inv_task w pc -> inv_task w' pc.
Proof.
  intros Hle. destruct pc as [r|r c|r c|r c e]; simpl; try done.
  - intros [Hc (p & Hp & Hcap)]. split; [done|].
    destruct (Hle _ _ Hp) as (p' & Hp' & _ & Hc' & _). eauto.
  - intros (p & Hp & Hd).
    destruct (Hle _ _ Hp) as (p' & Hp' & _ & _ & Hd'). eauto.
Qed.

Lemma host_drained_mono exe w w' :
  procs_le (procs w) (procs w') -> host_drained exe w -> host_drained exe w'.
Proof.
  intros Hle (p & Hp & Hc & Hd).
  destruct (Hle _ _ Hp) as (p' & Hp' & Hc' & _ & Hd').
  exists p'. split_and!; [done | congruence | auto].
Qed.

Lemma joiner_cmds_app exe ts1 ts2 :
  joiner_cmds exe (ts1 ++ ts2) = joiner_cmds exe ts1 ++ joiner_cmds exe ts2.
Proof.
  induction ts1 as [|pc ts1 IH]; [done|]. simpl.
  destruct (client_of pc); simpl; by rewrite IH.
Qed.

Lemma joiner_cmds_insert_same exe ts tid pc pc' :
  ts !! tid = Some pc -> room_of pc' = room_of pc ->
  (is_Some (client_of pc') <-> is_Some (client_of pc)) ->
  joiner_cmds exe (<[tid := pc']> ts) = joiner_cmds exe ts.
Proof.
  revert tid. induction ts as [|x ts IH]; intros [|tid] Hl Hr Hc; try done; simpl in *.
  - injection Hl as ->. rewrite Hr.
    destruct (client_of pc), (client_of pc'); try done.
    + destruct Hc as [_ Hc]. by destruct Hc.
    + destruct Hc as [Hc _]. by destruct Hc.
  - by rewrite IH.
Qed.

Lemma joiner_cmds_insert_started exe ts tid pc pc' :
  ts !! tid = Some pc -> room_of pc' = room_of pc ->
  client_of pc = None -> is_Some (client_of pc') ->
  joiner_cmds exe (<[tid := pc']> ts) ≡ₚ join_cmd exe (room_of pc) :: joiner_cmds exe ts.
Proof.
  revert tid. induction ts as [|x ts IH]; intros [|tid] Hl Hr Hn [c Hc]; try done; simpl in *.
  - injection Hl as ->. by rewrite Hc, Hn, Hr.
  - specialize (IH tid Hl Hr Hn (ex_intro _ c Hc)).
    destruct (client_of x); [|done]. rewrite IH. apply Permutation_swap.
Qed.

Lemma rooms_insert w tid pc pc' :
  loop_tasks w !! tid = Some pc -> room_of pc' = room_of pc ->
  room_of <$> <[tid := pc']> (loop_tasks w) = rooms w.
Proof.
  intros Hl Hr. unfold rooms. rewrite list_fmap_insert, Hr.
  apply list_insert_id. by rewrite list_lookup_fmap, Hl.
Qed.

Lemma host_ops_client t tid o : host_ops (t ++ [(Client tid, o)]) = host_ops t.
Proof. rewrite host_ops_app. simpl. apply app_nil_r. Qed.

Lemma host_ops_host t o : host_ops (t ++ [(Host, o)]) = host_ops t ++ [o].
Proof. by rewrite host_ops_app. Qed.

(** What does not touch the host leaves the host's part of the invariant
    alone. *)
Lemma inv_host_frame env exe w w' :
  host_task w' = host_task w ->
  host_ops (trace w') = host_ops (trace w) ->
  length (loop_tasks w') = length (loop_tasks w) ->
  rooms w' = rooms w ->
  (Forall returned (loop_tasks w) -> Forall returned (loop_tasks w')) ->
  procs_le (procs w) (procs w') ->
  (forall p, procs w !! 0%nat = Some p -> exists exited,
      procs w' !! 0%nat = Some (Proc (p_cmd p) (p_stderr p) exited)) ->
  host_task w <> HStart ->
  inv_host env exe w -> inv_host env exe w'.
Proof.
  intros Hh Ho Hlen Hr Hret Hle H0 Hns. unfold inv_host. rewrite Hh, Ho, Hlen, Hr.
  destruct (host_task w) as [|host tasks|tasks| |e]; try done.
  - intros (-> & -> & Hg & buf & exited & Hp & Hs & Hrooms).
    destruct (H0 _ Hp) as [exited' Hp']. split_and!; [done | done | done |]. eauto.
  - intros (-> & Hd & ? & ? & ?). split_and!; try done. by eapply host_drained_mono.
  - intros (Hf & Hd & ? & ? & ?). split_and!; auto. by eapply host_drained_mono.
Qed.

(** ** The invariant holds along every schedule *)

Lemma inv_step_host_start env exe w w' :
  inv env exe w -> host_task w = HStart ->
  step env RunHost w = Some w' -> inv env exe w'.
Proof.
  intros [He Hh Ht Hf Hl] Hs. unfold step. rewrite Hs.
  unfold inv_host in Hh. rewrite Hs in Hh. destruct Hh as (Hp & Hts & Ho).
  rewrite (run_host_start_eq env (set_current Host w)) by done. simpl. rewrite He.
  destruct (env 0%nat (host_cmd exe)) as [data|] eqn:E; intros [= <-].
  - split; simpl; try done.
    + unfold inv_host, full_script, all_rooms, rooms. simpl. rewrite Hts, E. simpl.
      split_and!; [done | done | by rewrite host_ops_host, Ho |]. exists data, false.
      split_and!; [done | | done]. by rewrite host_ops_host, Ho.
    + rewrite Hts. constructor.
    + by rewrite Hts.
  - split; simpl; try done.
    unfold inv_host, full_script, all_rooms, rooms. simpl. rewrite Hts, E, Ho. auto.
Qed.

Lemma inv_step_host_loop env exe w w' host tasks :
  inv env exe w -> host_task w = HLoop host tasks ->
  step env RunHost w = Some w' -> inv env exe w'.
Proof.
  intros [He Hh Ht Hf Hl] Hs. unfold step. rewrite Hs.
  unfold inv_host in Hh. rewrite Hs in Hh.
  destruct Hh as (-> & -> & Hg & buf & exited & Hp & Hscr & Hrooms).
  destruct (take_line buf) as [data rest] eqn:Htl.
  rewrite (run_host_loop_eq env (set_current Host w) _ _ _ _ _ _ _ Hp Htl). cbn zeta.
  pose proof (procs_le_readline _ _ _ _ _ _ _ Hp Htl) as Hle.
  pose proof (launched_insert w 0%nat _ (Proc (host_cmd exe) (Some rest) exited) Hp eq_refl)
    as Hlaunch.
  assert (Hne : <[0%nat := Proc (host_cmd exe) (Some rest) exited]> (procs w) <> []).
  { intros E. apply (f_equal length) in E. rewrite length_insert in E.
    apply lookup_lt_Some in Hp. simpl in E. lia. }
  assert (Hp' : <[0%nat := Proc (host_cmd exe) (Some rest) exited]> (procs w) !! 0%nat
                = Some (Proc (host_cmd exe) (Some rest) exited)).
  { apply list_lookup_insert_eq. by eapply lookup_lt_Some. }
  assert (Hbuf : buf = [] \/ lines_of buf = data :: lines_of rest).
  { destruct (decide (buf = [])) as [|Hn]; [by left | right].
    rewrite lines_of_take_line, Htl by done. done. }
  assert (Htasks : forall w0, procs w0 = <[0%nat := Proc (host_cmd exe) (Some rest) exited]> (procs w) ->
            Forall (inv_task w0) (loop_tasks w)).
  { intros w0 Hw0. eapply Forall_impl; [exact Ht|].
    intros pc. apply inv_task_mono. by rewrite Hw0. }
  assert (Hl' : forall w0, procs w0 = <[0%nat := Proc (host_cmd exe) (Some rest) exited]> (procs w) ->
            drop 1 (launched w0) ≡ₚ joiner_cmds exe (loop_tasks w)).
  { intros w0 Hw0. unfold launched. by rewrite Hw0, Hlaunch. }
  destruct (decode data) as [line|e] eqn:Hd.
  - case_bool_decide as Hnil.
    + (* end of stream *)
      subst line. apply decode_nil in Hd as ->.
      apply take_line_nil_inv in Htl as [-> ->].
      intros [= <-]. split; simpl; [done | | by apply Htasks | done | by apply Hl'].
      unfold inv_host. simpl. split_and!; [done | | | |].
      * eexists. split_and!; [exact Hp' | done | done].
      * rewrite <- Hscr. simpl. by rewrite !host_ops_host, <- app_assoc.
      * rewrite <- Hrooms. simpl. by rewrite app_nil_r.
      * rewrite !host_ops_host. unfold gathers in *. rewrite !omap_app, Hg. done.
    + assert (Hlines : lines_of buf = data :: lines_of rest).
      { destruct Hbuf as [->|]; [|done]. injection Htl as <- <-. by injection Hd as <-. }
      rewrite Hlines in Hscr, Hrooms. simpl in Hscr, Hrooms. rewrite Hd in Hscr, Hrooms.
      rewrite host_log_eq.
      destruct (find_room_id line) as [[id|]|e] eqn:Hfind; intros [= <-].
      * (* an announcement: a task is created *)
        split; simpl; [done | | | done |].
        -- unfold inv_host, rooms. simpl.
           rewrite length_app, Nat.add_1_r, seq_S, fmap_app. simpl.
           split_and!; [done | done | |]; [|exists rest, exited].
           { rewrite !host_ops_host. unfold gathers in *. rewrite !omap_app, Hg. done. }
           split_and!; [done | |].
           ++ rewrite <- Hscr. rewrite !host_ops_host, <- !app_assoc. done.
           ++ rewrite <- Hrooms, <- app_assoc. done.
        -- apply Forall_app. split; [by apply Htasks | by repeat constructor].
        -- rewrite joiner_cmds_app. simpl. rewrite app_nil_r. by apply Hl'.
      * (* an ordinary line *)
        split; simpl; [done | | by apply Htasks | done | by apply Hl'].
        unfold inv_host, rooms. simpl.
        split_and!; [done | done | |]; [|exists rest, exited].
        { rewrite !host_ops_host. unfold gathers in *. rewrite !omap_app, Hg. done. }
        split_and!; [done | | done].
        rewrite <- Hscr. rewrite !host_ops_host, <- !app_assoc. done.
      * (* the marker without a room ID *)
        split; simpl; [done | | by apply Htasks | done | by apply Hl'].
        unfold inv_host, rooms. simpl. split_and!.
        -- rewrite <- Hscr. rewrite !host_ops_host, <- !app_assoc. done.
        -- rewrite <- Hrooms. by rewrite app_nil_r.
        -- left. rewrite !host_ops_host. unfold gathers in *. rewrite !omap_app, Hg. done.
  - (* the line cannot be decoded *)
    assert (Hlines : lines_of buf = data :: lines_of rest).
    { destruct Hbuf as [->|]; [|done]. injection Htl as <- <-. done. }
    rewrite Hlines in Hscr, Hrooms. simpl in Hscr, Hrooms. rewrite Hd in Hscr, Hrooms.
    intros [= <-]. split; simpl; [done | | by apply Htasks | done | by apply Hl'].
    unfold inv_host, rooms. simpl. split_and!.
    + rewrite <- Hscr. by rewrite !host_ops_host.
    + rewrite <- Hrooms. by rewrite app_nil_r.
    + left. rewrite !host_ops_host. unfold gathers in *. rewrite !omap_app, Hg. done.
Qed.

Lemma inv_step_host_gather env exe w w' tasks :
  inv env exe w -> host_task w = HGather tasks ->
  step env RunHost w = Some w' -> inv env exe w'.
Proof.
  intros [He Hh Ht Hf Hl] Hs. unfold step. rewrite Hs.
  unfold inv_host in Hh. rewrite Hs in Hh. destruct Hh as (-> & Hd & Hscr & Hrooms & Hg).
  unfold gather. rewrite omap_lookup_seq.
  destruct (gather_poll (loop_tasks w)) as [[[]|e]|] eqn:Hpoll; intros [= <-].
  - apply gather_poll_ok in Hpoll. split; first [done | by unfold inv_host; simpl].
  - split; first [done | unfold inv_host; simpl; auto].
Qed.

Lemma inv_step_client env exe w w' tid :
  inv env exe w -> step env (RunClient tid) w = Some w' -> inv env exe w'.
Proof.
  intros [He Hh Ht Hf Hl]. unfold step.
  destruct (loop_tasks w !! tid) as [pc|] eqn:Hpc; [|done].
  assert (Hstart : host_task w <> HStart).
  { intros Hs. unfold inv_host in Hh. rewrite Hs in Hh.
    destruct Hh as (_ & Hts & _). by rewrite Hts in Hpc. }
  assert (Htne : loop_tasks w <> []) by (intros E; by rewrite E in Hpc).
  specialize (Hf Htne).
  pose proof (proj1 (Forall_lookup _ _) Ht _ _ Hpc) as Hitask.
  destruct pc as [room_id|room_id client| |]; try done.
  - (* the task starts its process *)
    rewrite (run_client_start_eq env (set_current (Client tid) w)). cbn zeta. simpl.
    rewrite He.
    destruct (env (length (procs w)) (join_cmd exe room_id)) as [data|] eqn:E;
      intros [= <-]; simpl.
    + pose proof (procs_le_app (procs w)
                    (Proc (join_cmd exe room_id) (Some data) false)) as Hle.
      split; simpl; [done | | | by destruct (procs w) | ].
      * eapply inv_host_frame; [..|exact Hstart|exact Hh]; simpl; try done.
        -- apply host_ops_client.
        -- apply length_insert.
        -- by eapply rooms_insert.
        -- intros Hall. exfalso.
           pose proof (proj1 (Forall_lookup _ _) Hall _ _ Hpc) as (? & ? & ?). done.
        -- intros p Hp. exists (p_exited p).
           rewrite lookup_app_l by (by eapply lookup_lt_Some). by destruct p.
      * apply Forall_insert.
        -- eapply Forall_impl; [exact Ht|]. intros pc. by apply inv_task_mono.
        -- simpl. split.
           ++ destruct (procs w); [done | simpl; lia].
           ++ eexists. split; [by apply list_lookup_middle | by eexists].
      * unfold launched. simpl. rewrite fmap_app. simpl.
        rewrite drop_app_le by (rewrite length_fmap; destruct (procs w); [done | simpl; lia]).
        rewrite (joiner_cmds_insert_started exe _ tid (CStart room_id)) by (done || by eexists).
        simpl. fold (launched w). rewrite Hl. symmetry. apply Permutation_cons_append.
    + split; simpl; [done | | | done | ].
      * eapply inv_host_frame; [..|exact Hstart|exact Hh]; simpl; try done.
        -- apply length_insert.
        -- by eapply rooms_insert.
        -- intros Hall. exfalso.
           pose proof (proj1 (Forall_lookup _ _) Hall _ _ Hpc) as (? & ? & ?). done.
        -- intros i p Hp. eauto.
        -- intros p Hp. exists (p_exited p). by destruct p.
      * apply Forall_insert; [|done].
        eapply Forall_impl; [exact Ht|]. intros pc. apply inv_task_mono.
        intros i p Hp. eauto.
      * by rewrite (joiner_cmds_insert_same exe _ tid (CStart room_id)).
  - (* the task reads a line *)
    simpl in Hitask. destruct Hitask as (Hc1 & p & Hp & [buf Hbuf]).
    destruct p as [cmd err exited]. simpl in Hbuf. subst err.
    destruct (take_line buf) as [data rest] eqn:Htl.
    rewrite (run_client_loop_eq env (set_current (Client tid) w) _ _ _ _ _ _ _ Hp Htl).
    cbn zeta.
    pose proof (procs_le_readline _ _ _ _ _ _ _ Hp Htl) as Hle.
    pose proof (launched_insert w client _ (Proc cmd (Some rest) exited) Hp eq_refl)
      as Hlaunch.
    assert (Hp' : <[client := Proc cmd (Some rest) exited]> (procs w) !! client
                  = Some (Proc cmd (Some rest) exited)).
    { apply list_lookup_insert_eq. by eapply lookup_lt_Some. }
    assert (Hne : <[client := Proc cmd (Some rest) exited]> (procs w) <> []).
    { intros E. by rewrite E in Hp'. }
    assert (Hhost : forall w0 pc',
      host_task w0 = host_task w -> host_ops (trace w0) = host_ops (trace w) ->
      loop_tasks w0 = <[tid := pc']> (loop_tasks w) -> room_of pc' = room_id ->
      procs w0 = <[client := Proc cmd (Some rest) exited]> (procs w) ->
      inv_host env exe w0).
    { intros w0 pc' H1 H2 H3 H4 H5.
      eapply inv_host_frame; [..|exact Hstart|exact Hh]; try done.
      - rewrite H3. apply length_insert.
      - unfold rooms at 1. rewrite H3. by eapply rooms_insert.
      - intros Hall. exfalso.
        pose proof (proj1 (Forall_lookup _ _) Hall _ _ Hpc) as (? & ? & ?). done.
      - by rewrite H5.
      - intros p Hp0. exists (p_exited p). rewrite H5.
        rewrite list_lookup_insert_ne by lia. by destruct p. }
    assert (Htasks : forall w0 pc',
      procs w0 = <[client := Proc cmd (Some rest) exited]> (procs w) ->
      inv_task w0 pc' ->
      Forall (inv_task w0) (<[tid := pc']> (loop_tasks w))).
    { intros w0 pc' H5 Hpc'. apply Forall_insert; [|done].
      eapply Forall_impl; [exact Ht|]. intros pc. apply inv_task_mono. by rewrite H5. }
    assert (Hj : forall pc', room_of pc' = room_id -> is_Some (client_of pc') ->
      drop 1 (p_cmd <$> <[client := Proc cmd (Some rest) exited]> (procs w))
      ≡ₚ joiner_cmds exe (<[tid := pc']> (loop_tasks w))).
    { intros pc' H1 H2. rewrite Hlaunch.
      by rewrite (joiner_cmds_insert_same exe _ tid (CLoop room_id client)). }
    destruct (decode data) as [line|e] eqn:Hd.
    + case_bool_decide as Hnil; intros [= <-]; simpl.
      * subst line. apply decode_nil in Hd as ->.
        apply take_line_nil_inv in Htl as [-> ->].
        split; simpl; [done | | | done | ].
        -- eapply Hhost; simpl; try done. apply host_ops_client.
        -- apply Htasks; [done|]. simpl. eexists. split; [exact Hp' | done].
        -- apply Hj; [done | by eexists].
      * split; simpl; [done | | | done | ].
        -- eapply Hhost; simpl; try done. by rewrite !host_ops_client.
        -- apply Htasks; [done|]. simpl. split; [done|].
           eexists. split; [exact Hp' | by eexists].
        -- apply Hj; [done | by eexists].
    + intros [= <-]. split; simpl; [done | | | done | ].
      * eapply Hhost; simpl; try done. apply host_ops_client.
      * by apply Htasks.
      * apply Hj; [done | by eexists].
Qed.

Lemma inv_step_exit env exe w w' pid :
  inv env exe w -> step env (ProcExit pid) w = Some w' -> inv env exe w'.
Proof.
  intros [He Hh Ht Hf Hl]. unfold step.
  destruct (procs w !! pid) as [[cmd err []]|] eqn:Hp; try done. intros [= <-].
  pose proof (procs_le_exit _ _ _ _ Hp) as Hle.
  split; simpl; [done | | | | ].
  - assert (Hs : host_task w <> HStart).
    { intros Hs. unfold inv_host in Hh. rewrite Hs in Hh. destruct Hh as (Hnil & _).
      by rewrite Hnil in Hp. }
    eapply inv_host_frame; [..|exact Hs|exact Hh]; try done.
    intros p Hp0. simpl. destruct (decide (pid = 0%nat)) as [->|Hne].
    + rewrite Hp in Hp0. injection Hp0 as <-. exists true.
      apply list_lookup_insert_eq. by eapply lookup_lt_Some.
    + exists (p_exited p). rewrite list_lookup_insert_ne by done. by destruct p.
  - eapply Forall_impl; [exact Ht|]. intros pc. by apply inv_task_mono.
  - intros Hne E. apply (f_equal length) in E. rewrite length_insert in E.
    apply lookup_lt_Some in Hp. simpl in E. lia.
  - unfold launched. simpl.
    by rewrite (launched_insert w pid _ (Proc cmd err true) Hp eq_refl).
Qed.

Lemma inv_step env exe l w w' :
  inv env exe w -> step env l w = Some w' -> inv env exe w'.
Proof.
  intros Hi Hs. destruct l as [|tid|pid].
  - destruct (host_task w) as [|host tasks|tasks| |e] eqn:Hh.
    + by eapply inv_step_host_start.
    + by eapply inv_step_host_loop.
    + by eapply inv_step_host_gather.
    + unfold step in Hs. by rewrite Hh in Hs.
    + unfold step in Hs. by rewrite Hh in Hs.
  - by eapply inv_step_client.
  - by eapply inv_step_exit.
Qed.

Lemma inv_exec env exe sched w w' :
  inv env exe w -> exec env sched w = Some w' -> inv env exe w'.
Proof.
  revert w. induction sched as [|l sched IH]; intros w Hi; simpl.
  - by intros [= <-].
  - destruct (step env l w) as [w1|] eqn:Hs; [|done].
    apply IH. by eapply inv_step.
Qed.

(** ** From the start of the script *)

Lemma main_world build rest :
  exists exe args,
    (main build rest initial).2 = World exe Main [] [] HStart [(Main, OpRun args)].
Proof.
  unfold main, bind, subprocess_run, ret.
  destruct rest as [|r0 rest']; repeat case_bool_decide; simpl; eauto.
Qed.

Lemma inv_main build env rest :
  inv env (executable_path (main build rest initial).2) (main build rest initial).2.
Proof.
  destruct (main_world build rest) as (exe & args & ->).
  split; simpl; done.
Qed.

Lemma inv_reachable build env rest w :
  reachable build env rest w ->
  inv env (executable_path (main build rest initial).2) w.
Proof. intros [sched H]. eapply inv_exec; [apply inv_main | exact H]. Qed.

(** ** The build step *)

(** C2, as the code has it: the exit status of the build is not looked at.
    The script goes on in the same way whatever the build returns: the
    first step of [run_host] starts the host process, also after a failed
    build. *)
Theorem C2_build_status_ignored build build' env rest sched :
  harness build env rest sched = harness build' env rest sched /\
  forall data,
    env 0%nat (host_cmd (executable_path (main build rest initial).2)) = Some data ->
    exists w, harness build env rest [RunHost] = Some w /\
      launched w = [host_cmd (executable_path w)] /\
      host_task w = HLoop 0 [].
Proof.
  split.
  - reflexivity.
  - intros data. unfold harness.
    destruct (main_world build rest) as (exe & args & ->).
    cbn [exec step host_task executable_path snd].
    rewrite (run_host_start_eq env) by done. simpl. intros ->.
    eexists. split; [reflexivity|]. done.
Qed.

(** C2 as stated fails: after a failed build the host process is started
    all the same, and the script can end with exit status 0. *)
Lemma C2_counterexample :
  ~ (forall build env rest sched w,
       (forall cmd, build cmd <> 0) ->
       harness build env rest sched = Some w ->
       launched w = [] /\ exit_status w <> Some 0).
Proof.
  intros H.
  destruct (harness failing_build two_rooms_env [] two_rooms_sched) as [w|] eqn:E;
    [|vm_compute in E; discriminate].
  destruct (H failing_build two_rooms_env [] two_rooms_sched w) as [_ Hex];
    [done | done |].
  apply Hex. vm_compute in E. injection E as <-. reflexivity.
Qed.

Lemma C2_build_status_ignored_witness :
  exists w, harness failing_build two_rooms_env [] [RunHost] = Some w /\
    launched w = [host_cmd debug_path].
Proof.
  destruct (proj2 (C2_build_status_ignored failing_build failing_build
                     two_rooms_env [] []) _ eq_refl) as (w & Hw & Hl & _).
  exists w. split; [done|]. rewrite Hl.
  vm_compute in Hw. injection Hw as <-. reflexivity.
Defined.

(** ** When a coroutine is over *)

(** C3, as the code has it: a [run_client] task has returned only when the
    stderr of its process has been read to the end, and [run_host] only
    when, in addition to that for its own process, all tasks have returned.
    The exit of the process is never awaited: a task whose process has
    nothing left on stderr returns at its next step, whether the process
    has exited or not. *)
Theorem C3_over_when_stream_drained build env rest w :
  reachable build env rest w ->
  (forall tid room_id client,
     loop_tasks w !! tid = Some (CReturned room_id client) ->
     exists p, procs w !! client = Some p /\ drained p) /\
  (host_task w = HReturned ->
     (exists p, procs w !! 0%nat = Some p /\ drained p) /\
     Forall returned (loop_tasks w)) /\
  (forall tid room_id client cmd exited,
     host_over w = false ->
     loop_tasks w !! tid = Some (CLoop room_id client) ->
     procs w !! client = Some (Proc cmd (Some []) exited) ->
     exists w', step env (RunClient tid) w = Some w' /\
       loop_tasks w' !! tid = Some (CReturned room_id client) /\
       procs w' !! client = Some (Proc cmd (Some []) exited)).
Proof.
  intros Hr. apply inv_reachable in Hr as [He Hh Ht Hf Hl]. split_and!.
  - intros tid room_id client Hpc.
    exact (proj1 (Forall_lookup _ _) Ht _ _ Hpc).
  - intros Hs. unfold inv_host in Hh. rewrite Hs in Hh.
    destruct Hh as (Hall & (p & Hp & _ & Hd) & _). eauto.
  - intros tid room_id client cmd exited Hover Hpc Hp.
    unfold step. rewrite Hpc.
    rewrite (run_client_loop_eq env (set_current (Client tid) w) _ _ _ _ _ _ _ Hp eq_refl).
    simpl. eexists. split; [reflexivity|]. simpl. split.
    + apply list_lookup_insert_eq. by eapply lookup_lt_Some.
    + apply list_lookup_insert_eq. by eapply lookup_lt_Some.
Qed.

Lemma C3_over_when_stream_drained_witness :
  exists w, reachable failing_build two_rooms_env [] w /\
    host_task w = HReturned /\
    Forall returned (loop_tasks w) /\
    Forall (fun p => p_exited p = false) (procs w).
Proof.
  destruct (harness failing_build two_rooms_env [] two_rooms_sched) as [w|] eqn:E;
    [|vm_compute in E; discriminate].
  assert (R : reachable failing_build two_rooms_env [] w) by (by exists two_rooms_sched).
  assert (Hh : host_task w = HReturned /\ Forall (fun p => p_exited p = false) (procs w)).
  { vm_compute in E. injection E as <-. split; [reflexivity | repeat constructor]. }
  exists w. split_and!; try apply Hh; [done|].
  exact (proj2 (proj1 (proj2 (C3_over_when_stream_drained _ _ _ _ R)) (proj1 Hh))).
Defined.

(** C3 as stated fails: a task returns, and [run_host] returns, while the
    processes are still running. *)
Lemma C3_counterexample :
  ~ (forall build env rest w tid room_id client,
       reachable build env rest w ->
       loop_tasks w !! tid = Some (CReturned room_id client) ->
       exists p, procs w !! client = Some p /\ drained p /\ p_exited p = true).
Proof.
  intros H.
  destruct (harness failing_build two_rooms_env [] two_rooms_sched) as [w|] eqn:E;
    [|vm_compute in E; discriminate].
  assert (R : reachable failing_build two_rooms_env [] w) by (by exists two_rooms_sched).
  vm_compute in E. injection E as <-.
  destruct (H _ _ _ _ 0%nat (lit "A1") 1%nat R eq_refl) as (p & Hp & _ & Hx).
  injection Hp as <-. discriminate.
Qed.

(** ** The set of tasks *)

Lemma run_client_frame env pc w :
  loop_tasks (run_client env pc w).2 = loop_tasks w /\
  host_task (run_client env pc w).2 = host_task w.
Proof.
  unfold run_client, bind, create_subprocess_exec, has_stderr, readline, lift,
    log, print, ret.
  repeat case_match;
    repeat match goal with
           | H : (_, _) = (_, _) |- _ => injection H as <- <-
           end;
    simpl; done.
Qed.

Lemma step_left_loop env l w w' :
  left_loop w = true -> step env l w = Some w' ->
  left_loop w' = true /\ length (loop_tasks w') = length (loop_tasks w).
Proof.
  unfold left_loop. intros Hl. destruct l as [|tid|pid]; simpl.
  - destruct (host_task w) as [|host tasks|tasks| |e] eqn:Hh; try done.
    destruct (gather tasks w) as [[[]|e]|]; intros [= <-]; done.
  - destruct (loop_tasks w !! tid) as [pc|]; [|done].
    destruct (run_client_frame env pc (set_current (Client tid) w)) as [Ht Hh].
    destruct (run_client env pc (set_current (Client tid) w)) as [r w1].
    simpl in Ht, Hh.
    destruct pc; try done; intros [= <-]; simpl;
      rewrite length_insert, Ht, Hh; done.
  - destruct (procs w !! pid) as [[cmd err []]|]; try done. by intros [= <-].
Qed.

Lemma exec_left_loop env sched w w' :
  left_loop w = true -> exec env sched w = Some w' ->
  left_loop w' = true /\ length (loop_tasks w') = length (loop_tasks w).
Proof.
  revert w. induction sched as [|l sched IH]; intros w Hl; simpl.
  - by intros [= <-].
  - destruct (step env l w) as [w1|] eqn:Hs; [|done].
    destruct (step_left_loop _ _ _ _ Hl Hs) as [Hl1 Hlen1].
    intros He. destruct (IH _ Hl1 He) as [? ?]. split; [done | congruence].
Qed.

Lemma inv_left_loop_rooms env exe w :
  inv env exe w -> left_loop w = true -> rooms w = all_rooms env exe.
Proof.
  intros [_ Hh _ _ _]. unfold left_loop, inv_host in *.
  destruct (host_task w); try done.
  - by destruct Hh as (_ & _ & _ & ? & _).
  - by destruct Hh as (_ & _ & _ & ? & _).
  - by destruct Hh as (_ & ? & _).
Qed.

Lemma run_client_outcome env pc w :
  room_of (client_outcome pc (run_client env pc w).1) = room_of pc.
Proof.
  unfold run_client, bind, create_subprocess_exec, has_stderr, readline, lift,
    log, print, ret.
  repeat case_match;
    repeat match goal with
           | H : (_, _) = (_, _) |- _ => injection H as <- <-
           end;
    simpl; done.
Qed.

Lemma run_client_host_ops env pc tid w :
  host_ops (trace (run_client env pc (set_current (Client tid) w)).2)
    = host_ops (trace w).
Proof.
  unfold run_client, bind, create_subprocess_exec, has_stderr, readline, lift,
    log, print, ret.
  repeat case_match;
    repeat match goal with
           | H : (_, _) = (_, _) |- _ => injection H as <- <-
           end;
    simpl; rewrite ?host_ops_client; done.
Qed.

(** Once [run_host] is over, nothing changes its outcome, adds to what it
    has done or creates a task. *)
Lemma step_host_over env l w w' :
  host_over w = true -> step env l w = Some w' ->
  host_task w' = host_task w /\ host_ops (trace w') = host_ops (trace w) /\
  rooms w' = rooms w.
Proof.
  unfold host_over. intros Hover. destruct l as [|tid|pid]; unfold step.
  - by destruct (host_task w).
  - destruct (loop_tasks w !! tid) as [pc|] eqn:Hpc; [|done].
    destruct (run_client_frame env pc (set_current (Client tid) w)) as [Ht Hh].
    pose proof (run_client_host_ops env pc tid w) as Ho.
    pose proof (run_client_outcome env pc (set_current (Client tid) w)) as Hr.
    destruct (run_client env pc (set_current (Client tid) w)) as [r w1].
    simpl in Ht, Hh, Ho, Hr.
    assert (Hgo : Some (set_loop_tasks (<[tid := client_outcome pc r]> (loop_tasks w1)) w1)
                  = Some w' ->
                  host_task w' = host_task w /\ host_ops (trace w') = host_ops (trace w) /\
                  rooms w' = rooms w).
    { intros [= <-]. simpl. split_and!; [done | done |].
      unfold rooms. simpl. rewrite Ht. by eapply rooms_insert. }
    destruct pc; try done.
  - destruct (procs w !! pid) as [[cmd err []]|]; try done. by intros [= <-].
Qed.

Lemma exec_host_over env sched : forall w w',
  host_over w = true -> exec env sched w = Some w' ->
  host_task w' = host_task w /\ host_ops (trace w') = host_ops (trace w) /\
  rooms w' = rooms w.
Proof.
  induction sched as [|l sched IH]; intros w w' Hover; simpl.
  - by intros [= <-].
  - destruct (step env l w) as [w1|] eqn:Hs; [|done]. intros Hex.
    destruct (step_host_over _ _ _ _ Hover Hs) as (Hh1 & Ho1 & Hr1).
    assert (Hover1 : host_over w1 = true) by (unfold host_over in *; by rewrite Hh1).
    destruct (IH _ _ Hover1 Hex) as (Hh2 & Ho2 & Hr2).
    split_and!; congruence.
Qed.

(** ** Bytes that cannot be decoded *)

(** C5, as the code has it: [UnicodeDecodeError] is not caught.  In
    [run_host] it ends the coroutine at once, with exit status 1; whatever
    the tasks still do afterwards, [run_host] stays as it is, [gather] is
    not called and no task is created.  In [run_client] it ends that task
    only, but the host's [gather] then raises instead of returning. *)
Theorem C5_decode_failure_is_raised env w pid cmd buf exited data rest :
  procs w !! pid = Some (Proc cmd (Some buf) exited) ->
  take_line buf = (data, rest) ->
  decode data = Raise UnicodeDecodeError ->
  (forall tasks, host_task w = HLoop pid tasks ->
     exists w', step env RunHost w = Some w' /\
       host_task w' = HRaised UnicodeDecodeError /\
       exit_status w' = Some 1 /\
       gathers (host_ops (trace w')) = gathers (host_ops (trace w)) /\
       loop_tasks w' = loop_tasks w /\
       step env RunHost w' = None /\
       forall sched w'', exec env sched w' = Some w'' ->
         host_task w'' = HRaised UnicodeDecodeError /\
         exit_status w'' = Some 1 /\
         gathers (host_ops (trace w'')) = gathers (host_ops (trace w)) /\
         rooms w'' = rooms w) /\
  (forall tid room_id,
     host_over w = false ->
     loop_tasks w !! tid = Some (CLoop room_id pid) ->
     exists w', step env (RunClient tid) w = Some w' /\
       loop_tasks w' = <[tid := CRaised room_id (Some pid) UnicodeDecodeError]> (loop_tasks w) /\
       host_task w' = host_task w /\
       forall tasks, host_task w' = HGather tasks -> tid ∈ tasks ->
         exists e w'', step env RunHost w' = Some w'' /\ host_task w'' = HRaised e).
Proof.
  intros Hp Htl Hd. split.
  - intros tasks Hh. unfold step at 1. rewrite Hh.
    rewrite (run_host_loop_eq env (set_current Host w) _ _ _ _ _ _ _ Hp Htl).
    cbn zeta. rewrite Hd. eexists. split; [reflexivity|]. simpl.
    assert (Hg : gathers (host_ops (trace w ++ [(Host, OpReadline pid data)]))
                 = gathers (host_ops (trace w))).
    { rewrite host_ops_host. unfold gathers. by rewrite omap_app, app_nil_r. }
    split_and!; try done.
    intros sched w'' Hex.
    apply exec_host_over in Hex as (Hh' & Ho' & Hr'); [|reflexivity].
    simpl in Hh', Ho', Hr'. unfold exit_status. rewrite Hh', Ho', Hg. done.
  - intros tid room_id Hover Hpc. unfold step at 1. rewrite Hpc.
    rewrite (run_client_loop_eq env (set_current (Client tid) w) _ _ _ _ _ _ _ Hp Htl).
    cbn zeta. rewrite Hd. eexists. split; [reflexivity|]. simpl.
    split_and!; try done.
    intros tasks Hg Hin. unfold step. simpl. rewrite Hg. unfold gather. simpl.
    destruct (gather_poll_raised
                (omap (fun t => <[tid := CRaised room_id (Some pid) UnicodeDecodeError]>
                                  (loop_tasks w) !! t) tasks)
                room_id (Some pid) UnicodeDecodeError) as [e' He'].
    { apply list_elem_of_omap. exists tid. split; [done|].
      apply list_lookup_insert_eq. by eapply lookup_lt_Some. }
    rewrite He'. eauto.
Qed.

Lemma C5_decode_failure_is_raised_witness :
  let w := demo_line_world ([Byte.xff] ++ nlb) in
  decode ([Byte.xff] ++ nlb) = Raise UnicodeDecodeError /\
  exists w', step bad_bytes_env RunHost w = Some w' /\
    host_task w' = HRaised UnicodeDecodeError /\ exit_status w' = Some 1.
Proof.
  intros w. split; [reflexivity|].
  destruct (proj1 (C5_decode_failure_is_raised bad_bytes_env w 0%nat _ _ _ _ _
                     eq_refl eq_refl eq_refl) [] eq_refl)
    as (w' & Hs & Hh & He & _).
  exists w'. done.
Defined.

(** C5 as stated fails: bytes that cannot be decoded do not end the read
    loop of [run_host] the way the end of the stream does; the coroutine
    raises instead of going on to [gather]. *)
Lemma C5_counterexample :
  ~ (forall env w pid cmd buf exited data rest tasks,
       procs w !! pid = Some (Proc cmd (Some buf) exited) ->
       take_line buf = (data, rest) ->
       decode data = Raise UnicodeDecodeError ->
       host_task w = HLoop pid tasks ->
       exists w', step env RunHost w = Some w' /\ host_task w' = HGather tasks).
Proof.
  intros H.
  destruct (H bad_bytes_env (demo_line_world ([Byte.xff] ++ nlb)) 0%nat _ _ _ _ _ []
              eq_refl eq_refl eq_refl eq_refl) as (w' & Hs & Hh).
  vm_compute in Hs. injection Hs as <-. discriminate.
Qed.

(** After [run_host] has raised, a task created before may still start its
    joiner: the run is over for the host, not yet for the task. *)
Example joiner_starts_after_host_raised :
  exists w,
    harness failing_build bad_bytes_env [] [RunHost; RunHost; RunHost; RunClient 0] = Some w /\
    host_task w = HRaised UnicodeDecodeError /\
    launched w = [host_cmd debug_path; join_cmd debug_path (lit "A1")].
Proof.
  eexists. split; [vm_compute; reflexivity|]. split; reflexivity.
Qed.

(** ** Gathering the tasks *)

(** C6, as the code has it: [gather] is called at most once and then on
    every task created, each once; [run_host] returns only when all of them
    have returned; and once [run_host] has left its read loop no task is
    added. *)
Theorem C6_tasks_gathered_once build env rest w :
  reachable build env rest w ->
  (gathers (host_ops (trace w)) = [] \/
   gathers (host_ops (trace w)) = [seq 0 (length (loop_tasks w))]) /\
  (forall tasks, host_task w = HGather tasks ->
     tasks = seq 0 (length (loop_tasks w)) /\
     gathers (host_ops (trace w)) = [tasks]) /\
  (host_task w = HReturned ->
     gathers (host_ops (trace w)) = [seq 0 (length (loop_tasks w))] /\
     Forall returned (loop_tasks w)) /\
  (left_loop w = true ->
     forall sched w', exec env sched w = Some w' ->
       length (loop_tasks w') = length (loop_tasks w) /\ rooms w' = rooms w).
Proof.
  intros Hr. pose proof (inv_reachable _ _ _ _ Hr) as Hi.
  pose proof Hi as [He Hh Ht Hf Hl]. unfold inv_host in Hh. split_and!.
  - destruct (host_task w).
    + destruct Hh as (_ & _ & ->). by left.
    + destruct Hh as (_ & _ & -> & _). by left.
    + destruct Hh as (-> & _ & _ & _ & ->). by right.
    + destruct Hh as (_ & _ & _ & _ & ->). by right.
    + by destruct Hh as (_ & _ & ?).
  - intros tasks Hs. rewrite Hs in Hh. by destruct Hh as (-> & _ & _ & _ & ->).
  - intros Hs. rewrite Hs in Hh. by destruct Hh as (? & _ & _ & _ & ->).
  - intros Hleft sched w' Hex.
    destruct (exec_left_loop _ _ _ _ Hleft Hex) as [Hleft' Hlen]. split; [done|].
    rewrite (inv_left_loop_rooms _ _ _ Hi Hleft).
    eapply inv_left_loop_rooms; [|done]. by eapply inv_exec.
Qed.

Lemma C6_tasks_gathered_once_witness :
  exists w, reachable failing_build two_rooms_env [] w /\
    gathers (host_ops (trace w)) = [[0; 1]%nat] /\
    Forall returned (loop_tasks w).
Proof.
  destruct (harness failing_build two_rooms_env [] two_rooms_sched) as [w|] eqn:E;
    [|vm_compute in E; discriminate].
  assert (R : reachable failing_build two_rooms_env [] w) by (by exists two_rooms_sched).
  assert (Hh : host_task w = HReturned /\ length (loop_tasks w) = 2%nat).
  { vm_compute in E. injection E as <-. done. }
  destruct Hh as [Hh Hlen].
  destruct (proj1 (proj2 (proj2 (C6_tasks_gathered_once _ _ _ _ R))) Hh) as [Hg Hall].
  exists w. rewrite Hlen in Hg. split_and!; [exact R | exact Hg | exact Hall].
Defined.

(** C6 as stated fails: when the host writes bytes that cannot be decoded
    after an announcement, [run_host] is over with a task that was never
    given to [gather]. *)
Lemma C6_counterexample :
  ~ (forall build env rest w,
       reachable build env rest w -> host_over w = true ->
       Forall resolved (loop_tasks w) /\
       gathers (host_ops (trace w)) = [seq 0 (length (loop_tasks w))]).
Proof.
  intros H.
  destruct (harness failing_build bad_bytes_env []
              [RunHost; RunHost; RunHost]) as [w|] eqn:E;
    [|vm_compute in E; discriminate].
  assert (R : reachable failing_build bad_bytes_env [] w)
    by (by exists [RunHost; RunHost; RunHost]).
  vm_compute in E. injection E as <-.
  destruct (H _ _ _ _ R eq_refl) as [_ Hg]. discriminate.
Qed.

(** ** The order of the host's operations *)

(** C9, as the code has it: what [run_host] has done at any moment is an
    initial part of [full_script]: per line, in the order of the stream,
    the read, then the logging, then the look for a room ID, then the
    creation of the task, all before the next read. *)
Theorem C9_host_follows_script build env rest w :
  reachable build env rest w ->
  host_ops (trace w)
    `prefix_of` full_script env (executable_path (main build rest initial).2).
Proof.
  intros Hr. apply inv_reachable in Hr as [He Hh Ht Hf Hl].
  unfold inv_host in Hh. destruct (host_task w).
  - destruct Hh as (_ & _ & ->). apply prefix_nil.
  - destruct Hh as (_ & _ & _ & buf & exited & _ & <- & _). by eexists.
  - destruct Hh as (_ & _ & <- & _). done.
  - destruct Hh as (_ & _ & <- & _). done.
  - destruct Hh as (<- & _). done.
Qed.

Lemma C9_host_follows_script_witness :
  exists w, reachable failing_build broken_announcement_env [] w /\
    host_ops (trace w) =
      [OpExec (host_cmd debug_path) 0;
       OpReadline 0 (blit "got free room ID r: A1" ++ nlb);
       OpPrint (host_log (lit "got free room ID r: A1" ++ nl));
       OpDetect (lit "got free room ID r: A1" ++ nl);
       OpCreateTask 0 (lit "A1");
       OpReadline 0 (blit "got free room ID" ++ nlb);
       OpPrint (host_log (lit "got free room ID" ++ nl));
       OpDetect (lit "got free room ID" ++ nl)] /\
    host_ops (trace w) `prefix_of` full_script broken_announcement_env debug_path.
Proof.
  destruct (harness failing_build broken_announcement_env []
              [RunHost; RunHost; RunHost]) as [w|] eqn:E;
    [|vm_compute in E; discriminate].
  assert (R : reachable failing_build broken_announcement_env [] w)
    by (by exists [RunHost; RunHost; RunHost]).
  pose proof (C9_host_follows_script _ _ _ _ R) as P.
  exists w. split_and!; [done | | exact P].
  vm_compute in E. injection E as <-. reflexivity.
Defined.

(** C9 as stated fails: the line is logged before it is looked at, not
    after. *)
Lemma C9_counterexample :
  ~ (forall build env rest w,
       reachable build env rest w -> detect_before_log (host_ops (trace w))).
Proof.
  intros H.
  destruct (harness failing_build broken_announcement_env []
              [RunHost; RunHost]) as [w|] eqn:E;
    [|vm_compute in E; discriminate].
  assert (R : reachable failing_build broken_announcement_env [] w)
    by (by exists [RunHost; RunHost]).
  specialize (H _ _ _ _ R 1%nat (lit "got free room ID r: A1" ++ nl)).
  vm_compute in E. injection E as <-.
  specialize (H eq_refl). discriminate.
Qed.

(** ** Runs to completion *)

Lemma exec_app env s1 s2 w w1 w2 :
  exec env s1 w = Some w1 -> exec env s2 w1 = Some w2 ->
  exec env (s1 ++ s2) w = Some w2.
Proof.
  revert w. induction s1 as [|l s1 IH]; intros w; simpl.
  - by intros [= ->].
  - destruct (step env l w); [|done]. apply IH.
Qed.






(** ** Two announcements *)










(** ** What a step adds *)

Lemma client_log_eq (line : str) :
  CLIENT_COLOR ++ Py.ljust (lit "CLIENT") 8 ++ ENDC ++ [space] ++ line = client_log line.
Proof. reflexivity. Qed.

Lemma step_effect env exe l w w' :
  inv env exe w -> step env l w = Some w' ->
  exists evs, trace w' = trace w ++ evs /\ Forall well_labelled evs /\
    launch_step exe (launched w) (launched w').
Proof.
  intros [He Hh Ht Hf Hl] Hs. unfold inv_host in Hh. destruct l as [|tid|pid].
  - unfold step in Hs. destruct (host_task w) as [|host tasks|tasks| |e] eqn:Hhost.
    + destruct Hh as (Hp & Hts & Ho).
      rewrite (run_host_start_eq env (set_current Host w)) in Hs by done.
      simpl in Hs. rewrite He in Hs.
      destruct (env 0%nat (host_cmd exe)); injection Hs as <-; simpl.
      * eexists. split; [reflexivity|]. split; [by repeat constructor|].
        right; left. unfold launched. simpl. by rewrite Hp.
      * exists []. rewrite app_nil_r. split_and!; [done | constructor | by left].
    + destruct Hh as (-> & -> & Hg & buf & exited & Hp & _).
      destruct (take_line buf) as [data rest] eqn:Htl.
      rewrite (run_host_loop_eq env (set_current Host w) _ _ _ _ _ _ _ Hp Htl) in Hs.
      cbn zeta in Hs.
      pose proof (launched_insert w 0%nat _ (Proc (host_cmd exe) (Some rest) exited)
                    Hp eq_refl) as Hlaunch.
      destruct (decode data) as [line|e] eqn:Hd.
      * case_bool_decide as Hnil.
        -- injection Hs as <-. simpl. rewrite <- app_assoc.
           eexists. split; [reflexivity|]. split; [by repeat constructor | by left].
        -- rewrite host_log_eq in Hs.
           destruct (find_room_id line) as [[id|]|e]; injection Hs as <-; simpl;
             rewrite <- ?app_assoc; (eexists; split; [reflexivity|]);
             (split; [repeat constructor; by eexists | by left]).
      * injection Hs as <-. simpl.
        eexists. split; [reflexivity|]. split; [by repeat constructor | by left].
    + destruct (gather tasks w) as [[[]|e]|]; [| |done]; injection Hs as <-; simpl;
        exists []; rewrite app_nil_r; (split_and!; [done | constructor | by left]).
    + done.
    + done.
  - unfold step in Hs.
    destruct (loop_tasks w !! tid) as [pc|] eqn:Hpc; [|done].
    assert (Hne : procs w <> []) by (apply Hf; intros E; by rewrite E in Hpc).
    pose proof (proj1 (Forall_lookup _ _) Ht _ _ Hpc) as Hitask.
    destruct pc as [room_id|room_id client| |]; try done.
    + rewrite (run_client_start_eq env (set_current (Client tid) w)) in Hs.
      cbn zeta in Hs. simpl in Hs. rewrite He in Hs.
      destruct (env (length (procs w)) (join_cmd exe room_id)); injection Hs as <-; simpl.
      * eexists. split; [reflexivity|]. split; [by repeat constructor|].
        right; right. unfold launched. simpl. rewrite fmap_app. split; [|by eexists].
        by destruct (procs w).
      * exists []. rewrite app_nil_r. split_and!; [done | constructor | by left].
    + simpl in Hitask. destruct Hitask as (_ & [cmd err exited] & Hp & [buf Hbuf]).
      simpl in Hbuf. subst err.
      destruct (take_line buf) as [data rest] eqn:Htl.
      rewrite (run_client_loop_eq env (set_current (Client tid) w) _ _ _ _ _ _ _ Hp Htl)
        in Hs.
      cbn zeta in Hs.
      pose proof (launched_insert w client _ (Proc cmd (Some rest) exited) Hp eq_refl)
        as Hlaunch.
      destruct (decode data) as [line|e] eqn:Hd.
      * rewrite client_log_eq in Hs.
        case_bool_decide as Hnil; injection Hs as <-; simpl; rewrite <- ?app_assoc;
          (eexists; split; [reflexivity|]);
          (split; [repeat constructor; by eexists | by left]).
      * injection Hs as <-. simpl.
        eexists. split; [reflexivity|]. split; [by repeat constructor | by left].
  - unfold step in Hs.
    destruct (procs w !! pid) as [[cmd err []]|] eqn:Hp; try done.
    injection Hs as <-. simpl. exists []. rewrite app_nil_r.
    split_and!; [done | constructor |]. left.
    by rewrite <- (launched_insert w pid _ (Proc cmd err true) Hp eq_refl).
Qed.

Lemma exec_effect env exe sched : forall w w',
  inv env exe w -> exec env sched w = Some w' ->
  exists evs, trace w' = trace w ++ evs /\ Forall well_labelled evs /\
    ((launched w = [] \/ exists rs, launched w = host_cmd exe :: (join_cmd exe <$> rs)) ->
     (launched w' = [] \/ exists rs, launched w' = host_cmd exe :: (join_cmd exe <$> rs))).
Proof.
  induction sched as [|l sched IH]; intros w w' Hi; simpl.
  - intros [= <-]. exists []. rewrite app_nil_r. split_and!; [done | constructor | done].
  - destruct (step env l w) as [w1|] eqn:Hs; [|done]. intros Hex.
    destruct (step_effect _ _ _ _ _ Hi Hs) as (evs1 & Ht1 & Hw1 & Hl1).
    destruct (IH w1 w' (inv_step _ _ _ _ _ Hi Hs) Hex) as (evs2 & Ht2 & Hw2 & Hl2).
    exists (evs1 ++ evs2). split_and!.
    + by rewrite Ht2, Ht1, app_assoc.
    + by apply Forall_app.
    + intros Hshape. apply Hl2.
      destruct Hl1 as [-> | [[Hnil ->] | [Hne [r ->]]]]; [done | | ].
      * right. by exists [].
      * destruct Hshape as [?|[rs Hrs]]; [done|]. right. exists (rs ++ [r]).
        by rewrite Hrs, fmap_app.
Qed.

(** ** The command line *)

(** X1: only a leading [--] is removed, and only once; what is left goes to
    [cargo build] unchanged and in order, and selects the release
    executable exactly when [--release] is among it.  Nothing else has
    happened when [asyncio.run] is called. *)
Theorem main_arguments build rest :
  exists args,
    (main build rest initial).2 =
      World (if bool_decide (lit "--release" ∈ args) then release_path else debug_path)
        Main [] [] HStart [(Main, OpRun ([lit "cargo"; lit "build"] ++ args))] /\
    (rest = lit "--" :: args \/ (args = rest /\ head rest <> Some (lit "--"))).
Proof.
  unfold main, bind, subprocess_run, ret.
  destruct rest as [|r0 rest'].
  - exists []. split; [|by right]. by rewrite bool_decide_false by apply not_elem_of_nil.
  - destruct (decide (r0 = lit "--")) as [->|Hsep].
    + rewrite (bool_decide_true (lit "--" = lit "--")) by done.
      exists rest'. split; [|by left]. by case_bool_decide.
    + rewrite (bool_decide_false (r0 = lit "--")) by done.
      exists (r0 :: rest'). split; [by case_bool_decide|]. right. split; [done|].
      simpl. congruence.
Qed.

(** ** The trace of a run *)

Lemma main_build_trace build rest :
  exists args, trace (main build rest initial).2
               = [(Main, OpRun ([lit "cargo"; lit "build"] ++ args))].
Proof.
  unfold main, bind, subprocess_run, ret.
  destruct rest as [|r0 rest'].
  - exists []. by case_bool_decide.
  - destruct (bool_decide (r0 = lit "--")).
    + exists rest'. by case_bool_decide.
    + exists (r0 :: rest'). by case_bool_decide.
Qed.

(** X2: the build is the first operation of every run and the only one of the
    script's top level: it is run once, before any process is started, and
    no command is run to completion after it. *)
Theorem build_runs_once_and_first build env rest w :
  reachable build env rest w ->
  exists args t,
    trace w = (Main, OpRun ([lit "cargo"; lit "build"] ++ args)) :: t /\
    Forall (fun e => e.1 <> Main /\ forall cmd, e.2 <> OpRun cmd) t.
Proof.
  intros [sched Hex]. unfold harness in Hex.
  destruct (exec_effect env _ _ _ _ (inv_main build env rest) Hex) as (evs & Ht & Hw & _).
  destruct (main_build_trace build rest) as (args & Hw0).
  rewrite Hw0 in Ht. simpl in Ht. exists args, evs. split; [done|].
  eapply Forall_impl; [exact Hw|].
  intros [[| |tid] o]; simpl; try done; destruct o; try done.
Qed.

(** ** The processes of a run *)

(** X4: the host is the first process started; every process after it is a
    joiner, started as [<executable> join-room -r <id>] with the executable
    the command line selected.  Processes are only ever added. *)
Theorem host_first_then_joiners build env rest w :
  reachable build env rest w ->
  let exe := executable_path (main build rest initial).2 in
  launched w = [] \/ exists rs, launched w = host_cmd exe :: (join_cmd exe <$> rs).
Proof.
  intros [sched Hex] exe. unfold harness in Hex.
  destruct (exec_effect env _ _ _ _ (inv_main build env rest) Hex) as (_ & _ & _ & Hl).
  apply Hl. left. by destruct (main_world build rest) as (exe0 & args & ->).
Qed.

Lemma host_first_then_joiners_witness :
  exists w, reachable failing_build two_rooms_env [lit "--"; lit "--release"] w /\
    launched w = [host_cmd release_path; join_cmd release_path (lit "A1")] /\
    (launched w = [] \/
     exists rs, launched w = host_cmd release_path :: (join_cmd release_path <$> rs)).
Proof.
  destruct (harness failing_build two_rooms_env [lit "--"; lit "--release"]
              [RunHost; RunHost; RunHost; RunClient 0]) as [w|] eqn:E;
    [|vm_compute in E; discriminate].
  assert (R : reachable failing_build two_rooms_env [lit "--"; lit "--release"] w)
    by (by exists [RunHost; RunHost; RunHost; RunClient 0]).
  pose proof (host_first_then_joiners _ _ _ _ R) as Hl.
  exists w. split; [exact R|]. split; [|exact Hl].
  vm_compute in E. injection E as <-. reflexivity.
Defined.

Lemma build_runs_once_and_first_witness :
  exists w, reachable failing_build two_rooms_env [lit "--"; lit "-v"] w /\
    exists t, trace w = (Main, OpRun [lit "cargo"; lit "build"; lit "-v"]) :: t.
Proof.
  destruct (harness failing_build two_rooms_env [lit "--"; lit "-v"] two_rooms_sched)
    as [w|] eqn:E; [|vm_compute in E; discriminate].
  assert (R : reachable failing_build two_rooms_env [lit "--"; lit "-v"] w)
    by (by exists two_rooms_sched).
  destruct (build_runs_once_and_first _ _ _ _ R) as (args & t & Ht & _).
  exists w. split; [exact R|]. exists t. rewrite Ht.
  vm_compute in E. injection E as <-. by injection Ht as <- _.
Defined.

(** ** One joiner per announcement *)




(** ** A room ID of whitespace only *)

Lemma lstrip_all_space (s : str) :
  Forall (fun c => Py.isspace c = true) s -> Py.lstrip s = [].
Proof. induction 1 as [|c s Hc _ IH]; [done|]. simpl. by rewrite Hc. Qed.

Lemma strip_all_space (s : str) :
  Forall (fun c => Py.isspace c = true) s -> Py.strip s = [].
Proof. intros H. unfold Py.strip, Py.rstrip. by rewrite (lstrip_all_space s H). Qed.

(** X6: the room ID is not checked for being empty: on a line with the marker
    whose text after the first [r:] is blank, the room ID is the empty
    string and the host creates a task for it all the same. *)
Theorem blank_room_id_is_accepted env w host tasks cmd buf exited data rest line before after :
  host_task w = HLoop host tasks ->
  procs w !! host = Some (Proc cmd (Some buf) exited) ->
  take_line buf = (data, rest) ->
  decode data = Ok line ->
  occurs room_marker line ->
  first_cut id_marker line before after ->
  Forall (fun c => Py.isspace c = true) after ->
  find_room_id line = Ok (Some []) /\
  exists w', step env RunHost w = Some w' /\
    loop_tasks w' = loop_tasks w ++ [CStart []] /\
    host_task w' = HLoop host (tasks ++ [length (loop_tasks w)]).
Proof.
  intros Hh Hp Htl Hd Hm Hcut Hsp.
  assert (Hf : find_room_id line = Ok (Some [])).
  { rewrite find_room_id_marker, (split_once_first_cut _ _ _ _ Hcut) by done.
    simpl. by rewrite (strip_all_space _ Hsp). }
  split; [done|]. unfold step. rewrite Hh.
  rewrite (run_host_loop_eq env (set_current Host w) _ _ _ _ _ _ _ Hp Htl).
  cbn zeta. rewrite Hd, Hf.
  assert (line <> []) as Hne.
  { intros ->. destruct Hm as (b & a & E). symmetry in E.
    apply app_eq_nil in E as [_ E]. discriminate. }
  rewrite bool_decide_false by done. eexists. split; [reflexivity|]. done.
Qed.

Lemma blank_room_id_is_accepted_witness :
  let w := demo_line_world (blit "got free room ID r: " ++ nlb) in
  exists w', step (fun _ _ => None) RunHost w = Some w' /\
    loop_tasks w' = [CStart []].
Proof.
  intros w.
  destruct (blank_room_id_is_accepted (fun _ _ => None) w 0%nat [] _ _ _ _ _
              (lit "got free room ID r: " ++ nl) (lit "got free room ID ") (lit " " ++ nl)
              eq_refl eq_refl eq_refl eq_refl)
    as (_ & w' & Hs & Ht & _).
  - by exists [], (lit " r: " ++ nl).
  - apply partition_first_cut. reflexivity.
  - by repeat constructor.
  - exists w'. split; [exact Hs | exact Ht].
Defined.

(** ** The host cannot be started *)

(** X7: when the host executable cannot be started, the first step of
    [run_host] raises [OSError] and that is the whole run: no process is
    started, no task created, nothing written, and the exit status is 1. *)
Theorem host_launch_failure build env rest w :
  env 0%nat (host_cmd (executable_path (main build rest initial).2)) = None ->
  reachable build env rest w ->
  launched w = [] /\ loop_tasks w = [] /\ stdout w = [] /\
  (host_task w = HStart \/ host_task w = HRaised OSError) /\
  exists w1, harness build env rest [RunHost] = Some w1 /\ exit_status w1 = Some 1.
Proof.
  intros Hd [sched Hex]. unfold harness in *.
  destruct (main_world build rest) as (exe & args & Hw0).
  rewrite Hw0 in Hd, Hex |- *. simpl in Hd.
  set (w0 := World exe Main [] [] HStart [(Main, OpRun args)]) in *.
  assert (Hs0 : step env RunHost w0 = Some (set_host_task (HRaised OSError)
                                             (set_current Host w0))).
  { unfold step. change (host_task w0) with HStart. cbv iota.
    rewrite (run_host_start_eq env (set_current Host w0)) by done.
    change (executable_path (set_current Host w0)) with exe. by rewrite Hd. }
  assert (Hw : w = w0 \/ w = set_host_task (HRaised OSError) (set_current Host w0)).
  { clear -Hex Hs0. destruct sched as [|l sched]; [left; by injection Hex as <-|].
    right. simpl in Hex. destruct l as [|tid|pid]; [|done|done].
    rewrite Hs0 in Hex. destruct sched as [|l sched]; [by injection Hex as <-|].
    simpl in Hex. by destruct l. }
  assert (Hlast : exists w1, exec env [RunHost] w0 = Some w1 /\ exit_status w1 = Some 1).
  { eexists. split; [cbn [exec]; by rewrite Hs0 | done]. }
  destruct Hw as [->| ->]; (split_and!; [reflexivity | reflexivity | reflexivity | | done]).
  - by left.
  - by right.
Qed.

Lemma host_launch_failure_witness :
  exists w, reachable failing_build (fun _ _ => None) [] w /\
    launched w = [] /\ exit_status w = Some 1.
Proof.
  destruct (harness failing_build (fun _ _ => None) [] [RunHost]) as [w|] eqn:E;
    [|vm_compute in E; discriminate].
  assert (R : reachable failing_build (fun _ _ => None) [] w) by (by exists [RunHost]).
  destruct (host_launch_failure failing_build (fun _ _ => None) [] w eq_refl R)
    as (Hl & _).
  exists w. split_and!; [exact R | exact Hl |].
  vm_compute in E. injection E as <-. reflexivity.
Defined.

(** ** The exit of a process is never observed *)

Lemma blind_ret {A} (a : A) : blind (ret a).
Proof. done. Qed.

Lemma blind_lift {A} (r : result A) : blind (lift r).
Proof. done. Qed.

Lemma blind_bind {A B} (m : M A) (k : A -> M B) :
  blind m -> (forall a, blind (k a)) -> blind (bind m k).
Proof.
  intros Hm Hk w. unfold bind. rewrite Hm.
  destruct (m w) as [[a|e] w1]; simpl; [apply Hk | done].
Qed.

Lemma blind_print text end_ : blind (print text end_).
Proof. done. Qed.

Lemma blind_log who color line : blind (log who color line).
Proof. done. Qed.

Lemma blind_detect line : blind (detect line).
Proof. done. Qed.

Lemma blind_create_task room_id : blind (create_task room_id).
Proof. done. Qed.

Lemma blind_has_stderr pid : blind (has_stderr pid).
Proof.
  intros w. unfold has_stderr. simpl. rewrite list_lookup_fmap.
  by destruct (procs w !! pid).
Qed.

Lemma blind_readline pid : blind (readline pid).
Proof.
  intros w. unfold readline. simpl. rewrite list_lookup_fmap.
  destruct (procs w !! pid) as [[cmd [buf|] exited]|]; simpl; try done.
  destruct (take_line buf) as [line rest]. simpl.
  unfold forget_exits. simpl. by rewrite list_fmap_insert.
Qed.

Lemma blind_create_subprocess_exec env cmd : blind (create_subprocess_exec env cmd).
Proof.
  intros w. unfold create_subprocess_exec. simpl. rewrite length_fmap.
  destruct (env (length (procs w)) cmd); [|done]. simpl.
  unfold forget_exits. simpl. by rewrite fmap_app.
Qed.

Lemma blind_run_client env pc : blind (run_client env pc).
Proof.
  destruct pc as [room_id|room_id client| |]; try apply blind_ret.
  - intros w. simpl.
    apply (blind_bind (create_subprocess_exec env _)); [apply blind_create_subprocess_exec|].
    intros client. apply blind_bind; [apply blind_has_stderr|].
    intros []; apply blind_ret.
  - simpl. apply blind_bind; [apply blind_readline|].
    intros data. apply blind_bind; [apply blind_lift|].
    intros line. case_bool_decide; [apply blind_ret|].
    apply blind_bind; [apply blind_log | intros; apply blind_ret].
Qed.

Lemma blind_run_host env pc : blind (run_host env pc).
Proof.
  destruct pc as [|host tasks| | |]; try apply blind_ret.
  - intros w. simpl.
    apply (blind_bind (create_subprocess_exec env _)); [apply blind_create_subprocess_exec|].
    intros host. apply blind_bind; [apply blind_has_stderr|].
    intros []; [apply blind_ret|].
    apply blind_bind; [apply blind_print | done].
  - simpl. apply blind_bind; [apply blind_readline|].
    intros data. apply blind_bind; [apply blind_lift|].
    intros line. case_bool_decide; [done|].
    apply blind_bind; [apply blind_log|]. intros _.
    apply blind_bind; [apply blind_detect|].
    intros [id|]; [|apply blind_ret].
    apply blind_bind; [apply blind_create_task | intros; apply blind_ret].
Qed.

Lemma step_forget_exits env l w w' :
  step env l w = Some w' ->
  match l with
  | ProcExit _ => forget_exits w' = forget_exits w
  | _ => step env l (forget_exits w) = Some (forget_exits w')
  end.
Proof.
  destruct l as [|tid|pid]; unfold step.
  - change (host_task (forget_exits w)) with (host_task w).
    destruct (host_task w) as [|host tasks|tasks| |e] eqn:Hh; try done.
    + change (set_current Host (forget_exits w)) with (forget_exits (set_current Host w)).
      rewrite blind_run_host.
      destruct (run_host env HStart (set_current Host w)) as [r w1]. by intros [= <-].
    + change (set_current Host (forget_exits w)) with (forget_exits (set_current Host w)).
      rewrite blind_run_host.
      destruct (run_host env (HLoop host tasks) (set_current Host w)) as [r w1].
      by intros [= <-].
    + change (gather tasks (forget_exits w)) with (gather tasks w).
      destruct (gather tasks w) as [[[]|e]|]; try done; by intros [= <-].
  - change (loop_tasks (forget_exits w)) with (loop_tasks w).
    destruct (loop_tasks w !! tid) as [pc|]; [|done].
    change (set_current (Client tid) (forget_exits w))
      with (forget_exits (set_current (Client tid) w)).
    destruct pc; try done; rewrite blind_run_client;
      destruct (run_client env _ (set_current (Client tid) w)) as [r w1];
      by intros [= <-].
  - destruct (procs w !! pid) as [[cmd err []]|] eqn:Hp; try done. intros [= <-].
    unfold forget_exits, set_procs. simpl. rewrite list_fmap_insert.
    rewrite list_insert_id; [done|]. by rewrite list_lookup_fmap, Hp.
Qed.

Lemma exec_forget_exits env sched : forall w w',
  exec env sched w = Some w' ->
  exec env (without_exits sched) (forget_exits w) = Some (forget_exits w').
Proof.
  induction sched as [|l sched IH]; intros w w'; simpl.
  - by intros [= <-].
  - destruct (step env l w) as [w1|] eqn:Hs; [|done]. intros Hex.
    pose proof (step_forget_exits _ _ _ _ Hs) as Hf.
    destruct l as [|tid|pid]; cbn [without_exits exec].
    + rewrite Hf. by apply IH.
    + rewrite Hf. by apply IH.
    + rewrite <- Hf. by apply IH.
Qed.

(** X8: the script never looks at whether a child process has exited: what a
    run does is the same when no process ever exits.  Taking the exits out
    of a schedule gives a run with the same trace, console output, tasks
    and exit status, and processes that differ only in not having exited. *)
Theorem exits_are_not_observed build env rest sched w :
  harness build env rest sched = Some w ->
  harness build env rest (without_exits sched) = Some (forget_exits w) /\
  trace (forget_exits w) = trace w /\
  stdout (forget_exits w) = stdout w /\
  loop_tasks (forget_exits w) = loop_tasks w /\
  host_task (forget_exits w) = host_task w /\
  exit_status (forget_exits w) = exit_status w /\
  launched (forget_exits w) = launched w /\
  (p_stderr <$> procs (forget_exits w)) = (p_stderr <$> procs w).
Proof.
  intros Hex. unfold harness in *. split_and!; try done.
  - apply exec_forget_exits in Hex.
    destruct (main_world build rest) as (exe & args & Hw0).
    rewrite Hw0 in Hex |- *. exact Hex.
  - unfold launched. simpl. rewrite <- list_fmap_compose. done.
  - simpl. rewrite <- list_fmap_compose. done.
Qed.

Lemma exits_are_not_observed_witness :
  exists w, harness failing_build two_rooms_env []
              [RunHost; ProcExit 0; RunHost; RunHost; RunClient 0; ProcExit 1] = Some w /\
    harness failing_build two_rooms_env [] [RunHost; RunHost; RunHost; RunClient 0]
      = Some (forget_exits w).
Proof.
  destruct (harness failing_build two_rooms_env []
              [RunHost; ProcExit 0; RunHost; RunHost; RunClient 0; ProcExit 1])
    as [w|] eqn:E; [|vm_compute in E; discriminate].
  exists w. split; [reflexivity|].
  exact (proj1 (exits_are_not_observed _ _ _ _ _ E)).
Defined.

(** ** Tasks are only added *)

Lemma run_host_tasks env pc w :
  exists extra, loop_tasks (run_host env pc w).2 = loop_tasks w ++ extra /\
    (length extra <= 1)%nat.
Proof.
  unfold run_host, bind, create_subprocess_exec, has_stderr, readline, lift,
    log, print, detect, create_task, ret.
  repeat case_match;
    repeat match goal with
           | H : (_, _) = (_, _) |- _ => injection H as <- <-
           end;
    simpl;
    first [ by (exists []; rewrite app_nil_r; simpl; split; [done | lia])
          | by (eexists; split; [reflexivity | simpl; lia]) ].
Qed.

Lemma step_tasks env l w w' :
  step env l w = Some w' ->
  exists extra, rooms w' = rooms w ++ extra /\
    (length extra <= host_steps [l])%nat /\
    forall tid pc, loop_tasks w !! tid = Some pc -> resolved pc ->
      loop_tasks w' !! tid = Some pc.
Proof.
  destruct l as [|tid|pid]; unfold step.
  - destruct (host_task w) as [|host tasks|tasks| |e] eqn:Hh; try done.
    + destruct (run_host_tasks env HStart (set_current Host w)) as (extra & Ht & Hlen).
      destruct (run_host env HStart (set_current Host w)) as [r w1]. intros [= <-].
      simpl in *. exists (room_of <$> extra). unfold rooms. simpl.
      rewrite Ht, fmap_app, length_fmap. split_and!; [done | done |].
      intros tid pc Hpc _. by apply lookup_app_l_Some.
    + destruct (run_host_tasks env (HLoop host tasks) (set_current Host w))
        as (extra & Ht & Hlen).
      destruct (run_host env (HLoop host tasks) (set_current Host w)) as [r w1].
      intros [= <-]. simpl in *. exists (room_of <$> extra). unfold rooms. simpl.
      rewrite Ht, fmap_app, length_fmap. split_and!; [done | done |].
      intros tid pc Hpc _. by apply lookup_app_l_Some.
    + destruct (gather tasks w) as [[[]|e]|]; try done; intros [= <-];
        exists []; rewrite app_nil_r; simpl; (split_and!; [done | lia | done]).
  - destruct (loop_tasks w !! tid) as [pc|] eqn:Hpc; [|done].
    destruct (run_client_frame env pc (set_current (Client tid) w)) as [Ht _].
    pose proof (run_client_outcome env pc (set_current (Client tid) w)) as Hroom.
    destruct (run_client env pc (set_current (Client tid) w)) as [r w1].
    simpl in Ht, Hroom.
    assert (Hgo : ~ resolved pc -> Some (set_loop_tasks (<[tid := client_outcome pc r]> (loop_tasks w1)) w1)
                  = Some w' ->
                  exists extra, rooms w' = rooms w ++ extra /\ (length extra <= 0)%nat /\
                    forall tid0 pc0, loop_tasks w !! tid0 = Some pc0 -> resolved pc0 ->
                      loop_tasks w' !! tid0 = Some pc0).
    { intros Hnres [= <-]. exists []. rewrite app_nil_r. unfold rooms. simpl. rewrite Ht.
      split_and!; [by eapply rooms_insert | done |].
      intros tid0 pc0 Hpc0 Hres. destruct (decide (tid0 = tid)) as [->|Hne].
      - rewrite Hpc in Hpc0. by injection Hpc0 as <-.
      - by rewrite list_lookup_insert_ne. }
    destruct pc; try done; apply Hgo; simpl; tauto.
  - destruct (procs w !! pid) as [[cmd err []]|]; try done. intros [= <-].
    exists []. rewrite app_nil_r. simpl. done.
Qed.

(** X9: tasks are never removed, reordered or given another room ID; one step
    of [run_host] creates at most one task and no other step creates any;
    and a task that has returned or raised stays as it is. *)
Theorem tasks_are_only_added env sched : forall w w',
  exec env sched w = Some w' ->
  rooms w `prefix_of` rooms w' /\
  (length (loop_tasks w') <= length (loop_tasks w) + host_steps sched)%nat /\
  forall tid pc, loop_tasks w !! tid = Some pc -> resolved pc ->
    loop_tasks w' !! tid = Some pc.
Proof.
  induction sched as [|l sched IH]; intros w w'; simpl.
  - intros [= <-]. split_and!; [done | lia | done].
  - destruct (step env l w) as [w1|] eqn:Hs; [|done]. intros Hex.
    destruct (step_tasks _ _ _ _ Hs) as (extra & Hr & Hlen & Hkeep).
    destruct (IH _ _ Hex) as (Hpre & Hlen' & Hkeep').
    split_and!.
    + etrans; [|exact Hpre]. rewrite Hr. by apply prefix_app_r.
    + assert (length (loop_tasks w1) = length (loop_tasks w) + length extra)%nat.
      { apply (f_equal length) in Hr. unfold rooms in Hr.
        by rewrite length_app, !length_fmap in Hr. }
      simpl in Hlen. destruct l; simpl in *; lia.
    + intros tid pc Hpc Hres. apply Hkeep'; [|done]. by apply Hkeep.
Qed.

Lemma tasks_are_only_added_witness :
  exists w w', exec two_rooms_env [RunHost; RunClient 0; RunHost] w = Some w' /\
    rooms w = [lit "A1"] /\ rooms w' = [lit "A1"; lit "B2"] /\
    rooms w `prefix_of` rooms w'.
Proof.
  destruct (harness failing_build two_rooms_env [] [RunHost; RunHost; RunHost])
    as [w|] eqn:E; [|vm_compute in E; discriminate].
  destruct (exec two_rooms_env [RunHost; RunClient 0; RunHost] w) as [w'|] eqn:E';
    [|vm_compute in E; injection E as <-; vm_compute in E'; discriminate].
  destruct (tasks_are_only_added _ _ _ _ E') as (Hpre & _).
  exists w, w'. split; [exact E'|].
  split; [|split; [|exact Hpre]].
  - vm_compute in E. injection E as <-. reflexivity.
  - vm_compute in E. injection E as <-. vm_compute in E'. injection E' as <-. reflexivity.
Defined.

(** ** A task that raised *)

Lemma exec_keeps_resolved env sched : forall w w' tid pc,
  exec env sched w = Some w' ->
  loop_tasks w !! tid = Some pc -> resolved pc ->
  loop_tasks w' !! tid = Some pc.
Proof.
  induction sched as [|l sched IH]; intros w w' tid pc; simpl.
  - by intros [= <-].
  - destruct (step env l w) as [w1|] eqn:Hs; [|done]. intros Hex Hpc Hres.
    destruct (step_tasks _ _ _ _ Hs) as (_ & _ & _ & Hkeep).
    eapply IH; [exact Hex | by apply Hkeep | done].
Qed.

(** X10: once a task has raised, whether its joiner could not be started or
    wrote bytes that cannot be decoded, [run_host] never returns: the run
    cannot end with exit status 0 any more. *)
Theorem failed_joiner_fails_run build env rest w tid room_id client e sched w' :
  reachable build env rest w ->
  loop_tasks w !! tid = Some (CRaised room_id client e) ->
  exec env sched w = Some w' ->
  host_task w' <> HReturned /\ exit_status w' <> Some 0.
Proof.
  intros [s0 Hs0] Hpc Hex.
  assert (R : reachable build env rest w').
  { exists (s0 ++ sched). unfold harness in *. by eapply exec_app. }
  pose proof (exec_keeps_resolved _ _ _ _ _ _ Hex Hpc I) as Hpc'.
  assert (Hn : host_task w' <> HReturned).
  { intros Hh. apply inv_reachable in R as [_ Hi _ _ _].
    unfold inv_host in Hi. rewrite Hh in Hi. destruct Hi as (Hall & _).
    pose proof (proj1 (Forall_lookup _ _) Hall _ _ Hpc') as (? & ? & ?). done. }
  split; [done|]. unfold exit_status. by destruct (host_task w').
Qed.

Lemma failed_joiner_fails_run_witness :
  exists w w', reachable failing_build
                 (fun pid _ => match pid with O => two_rooms_env 0%nat [] | _ => None end)
                 [] w /\
    loop_tasks w !! 0%nat = Some (CRaised (lit "A1") None OSError) /\
    exec (fun pid _ => match pid with O => two_rooms_env 0%nat [] | _ => None end)
      [RunHost; RunHost; RunHost] w = Some w' /\
    exit_status w' <> Some 0.
Proof.
  set (env := fun (pid : nat) (_ : list str) =>
                match pid with O => two_rooms_env 0%nat [] | _ => None end).
  destruct (harness failing_build env [] [RunHost; RunHost; RunHost; RunClient 0])
    as [w|] eqn:E; [|vm_compute in E; discriminate].
  assert (R : reachable failing_build env [] w)
    by (by exists [RunHost; RunHost; RunHost; RunClient 0]).
  assert (Hpc : loop_tasks w !! 0%nat = Some (CRaised (lit "A1") None OSError)).
  { vm_compute in E. injection E as <-. reflexivity. }
  destruct (exec env [RunHost; RunHost; RunHost] w) as [w'|] eqn:E';
    [|vm_compute in E; injection E as <-; vm_compute in E'; discriminate].
  destruct (failed_joiner_fails_run _ _ _ _ _ _ _ _ _ _ R Hpc E') as [_ Hn].
  exists w, w'. split; [exact R|]. split; [exact Hpc|]. split; [exact E' | exact Hn].
Defined.

(** ** A host that announces nothing *)





(** ** What a joiner's task does *)

Lemma client_ops_app tid t1 t2 :
  client_ops tid (t1 ++ t2) = client_ops tid t1 ++ client_ops tid t2.
Proof. apply omap_app. Qed.

Lemma client_ops_self tid t o :
  client_ops tid (t ++ [(Client tid, o)]) = client_ops tid t ++ [o].
Proof. rewrite client_ops_app. simpl. by rewrite decide_True. Qed.

Lemma client_ops_other tid tid' t o :
  tid' <> tid -> client_ops tid (t ++ [(Client tid', o)]) = client_ops tid t.
Proof.
  intros Hne. rewrite client_ops_app. simpl. rewrite decide_False by done.
  apply app_nil_r.
Qed.

Lemma client_ops_host tid t o :
  client_ops tid (t ++ [(Host, o)]) = client_ops tid t.
Proof. rewrite client_ops_app. apply app_nil_r. Qed.

(** What leaves a task's operations and its process's stream alone leaves
    its part of the invariant alone. *)
Lemma relay_task_frame env exe w w' tid pc :
  client_ops tid (trace w') = client_ops tid (trace w) ->
  (forall r pid cmd buf exited, pc = CLoop r pid ->
     procs w !! pid = Some (Proc cmd (Some buf) exited) ->
     exists exited', procs w' !! pid = Some (Proc cmd (Some buf) exited')) ->
  relay_task env exe w tid pc -> relay_task env exe w' tid pc.
Proof.
  intros Ho Hp. unfold relay_task. rewrite Ho.
  destruct pc as [r|r pid|r pid|r [pid|] e]; try done.
  intros (data & buf & exited & Hd & Hproc & Hs).
  destruct (Hp _ _ _ _ _ eq_refl Hproc) as [exited' Hproc']. eauto 10.
Qed.

Lemma relay_step env exe l w w' :
  inv env exe w -> relay env exe w -> step env l w = Some w' -> relay env exe w'.
Proof.
  intros [He Hh Ht Hf Hl] [Rt Rf Rd] Hs. unfold inv_host in Hh.
  destruct l as [|tid|pid].
  - (* the host *)
    unfold step in Hs. destruct (host_task w) as [|host tasks|tasks| |e] eqn:Hhost.
    + destruct Hh as (Hp & Hts & Ho).
      rewrite (run_host_start_eq env (set_current Host w)) in Hs by done.
      simpl in Hs. destruct (env 0%nat _); injection Hs as <-; split; simpl;
        rewrite ?Hts; try done; intros; rewrite ?client_ops_host; apply Rf;
        rewrite Hts; simpl; lia.
    + destruct Hh as (-> & -> & Hg & buf & exited & Hp & _).
      destruct (take_line buf) as [data rest] eqn:Htl.
      rewrite (run_host_loop_eq env (set_current Host w) _ _ _ _ _ _ _ Hp Htl) in Hs.
      cbn zeta in Hs.
      assert (Hframe : forall w0 tid pc,
                procs w0 = <[0%nat := Proc (host_cmd exe) (Some rest) exited]> (procs w) ->
                client_ops tid (trace w0) = client_ops tid (trace w) ->
                loop_tasks w !! tid = Some pc ->
                relay_task env exe w0 tid pc).
      { intros w0 tid pc Hw0 Ho Hpc. eapply relay_task_frame; [exact Ho| |by apply Rt].
        intros r pid cmd buf0 ex0 -> Hproc. exists ex0. rewrite Hw0.
        pose proof (proj1 (Forall_lookup _ _) Ht _ _ Hpc) as Hit. simpl in Hit.
        destruct Hit as [Hge _]. rewrite list_lookup_insert_ne by lia. done. }
      destruct (decode data) as [line|e] eqn:Hd.
      * case_bool_decide as Hnil.
        -- injection Hs as <-. split; simpl.
           ++ intros tid pc Hpc. apply Hframe; [done| |done]. simpl.
              by rewrite !client_ops_host.
           ++ intros tid Hlen. rewrite !client_ops_host. by apply Rf.
           ++ done.
        -- destruct (find_room_id line) as [[id|]|e]; injection Hs as <-; split; simpl.
           ++ intros tid pc [Hpc|[Htid Hpc]]%lookup_app_Some.
              ** apply Hframe; [done| |done]. simpl. by rewrite !client_ops_host.
              ** destruct (tid - length (loop_tasks w))%nat; [|done].
                 injection Hpc as <-. simpl. rewrite !client_ops_host. by apply Rf.
           ++ intros tid Hlen. rewrite length_app in Hlen. simpl in Hlen.
              rewrite !client_ops_host. apply Rf. lia.
           ++ intros tid1 tid2 r1 r2 pid [H1|[_ H1]]%lookup_app_Some
                [H2|[_ H2]]%lookup_app_Some.
              ** by eapply Rd.
              ** destruct (tid2 - length (loop_tasks w))%nat; done.
              ** destruct (tid1 - length (loop_tasks w))%nat; done.
              ** destruct (tid1 - length (loop_tasks w))%nat; done.
           ++ intros tid pc Hpc. apply Hframe; [done| |done]. simpl.
              by rewrite !client_ops_host.
           ++ intros tid Hlen. rewrite !client_ops_host. by apply Rf.
           ++ done.
           ++ intros tid pc Hpc. apply Hframe; [done| |done]. simpl.
              by rewrite !client_ops_host.
           ++ intros tid Hlen. rewrite !client_ops_host. by apply Rf.
           ++ done.
      * injection Hs as <-. split; simpl.
        -- intros tid pc Hpc. apply Hframe; [done| |done]. simpl.
           by rewrite !client_ops_host.
        -- intros tid Hlen. rewrite !client_ops_host. by apply Rf.
        -- done.
    + destruct (gather tasks w) as [[[]|e]|]; [| |done]; injection Hs as <-; by split.
    + done.
    + done.
  - (* a task *)
    unfold step in Hs.
    destruct (loop_tasks w !! tid) as [pc|] eqn:Hpc; [|done].
    assert (Hne : procs w <> []) by (apply Hf; intros E; by rewrite E in Hpc).
    assert (Htid : (tid < length (loop_tasks w))%nat) by (by eapply lookup_lt_Some).
    pose proof (proj1 (Forall_lookup _ _) Ht _ _ Hpc) as Hitask.
    pose proof (Rt _ _ Hpc) as Hrelay.
    destruct pc as [room_id|room_id client| |]; try done.
    + (* it starts its process *)
      rewrite (run_client_start_eq env (set_current (Client tid) w)) in Hs.
      cbn zeta in Hs. simpl in Hs. rewrite He in Hs. simpl in Hrelay.
      destruct (env (length (procs w)) (join_cmd exe room_id)) as [data|] eqn:Hd;
        injection Hs as <-; split; simpl.
      * intros tid0 pc0 [(<- & <- & _)|[Hne0 Hpc0]]%list_lookup_insert_Some.
        -- simpl. exists data, data, false. split_and!; [done | by apply list_lookup_middle |].
           by rewrite client_ops_self, Hrelay.
        -- eapply relay_task_frame; [| |by apply Rt]; simpl.
           ++ by apply client_ops_other.
           ++ intros r pid cmd buf ex _ Hproc. exists ex.
              by apply lookup_app_l_Some.
      * intros tid0 Hlen. rewrite length_insert in Hlen.
        rewrite client_ops_other by lia. by apply Rf.
      * intros tid1 tid2 r1 r2 pid
          [(<- & E1 & _)|[Hne1 H1]]%list_lookup_insert_Some
          [(Heq & E2 & _)|[Hne2 H2]]%list_lookup_insert_Some; try done.
        -- injection E1 as <- <-.
           pose proof (proj1 (Forall_lookup _ _) Ht _ _ H2) as Hit. simpl in Hit.
           destruct Hit as (_ & p & Hp & _). apply lookup_lt_Some in Hp. lia.
        -- injection E2 as <- <-.
           pose proof (proj1 (Forall_lookup _ _) Ht _ _ H1) as Hit. simpl in Hit.
           destruct Hit as (_ & p & Hp & _). apply lookup_lt_Some in Hp. lia.
        -- by eapply Rd.
      * intros tid0 pc0 [(<- & <- & _)|[Hne0 Hpc0]]%list_lookup_insert_Some; [done|].
        by apply Rt.
      * intros tid0 Hlen. rewrite length_insert in Hlen. by apply Rf.
      * intros tid1 tid2 r1 r2 pid
          [(_ & [=] & _)|[Hne1 H1]]%list_lookup_insert_Some
          [(_ & [=] & _)|[Hne2 H2]]%list_lookup_insert_Some.
        by eapply Rd.
    + (* it reads a line *)
      simpl in Hrelay. destruct Hrelay as (data0 & buf & exited & Hd0 & Hp & Hscr).
      destruct (take_line buf) as [data rest] eqn:Htl.
      rewrite (run_client_loop_eq env (set_current (Client tid) w) _ _ _ _ _ _ _ Hp Htl)
        in Hs.
      cbn zeta in Hs.
      assert (Hp' : <[client := Proc (join_cmd exe room_id) (Some rest) exited]> (procs w)
                      !! client = Some (Proc (join_cmd exe room_id) (Some rest) exited)).
      { apply list_lookup_insert_eq. by eapply lookup_lt_Some. }
      assert (Hbuf : buf = [] \/ lines_of buf = data :: lines_of rest).
      { destruct (decide (buf = [])) as [|Hn]; [by left | right].
        rewrite lines_of_take_line, Htl by done. done. }
      assert (Hothers : forall w0 tid0 pc0,
                procs w0 = <[client := Proc (join_cmd exe room_id) (Some rest) exited]>
                             (procs w) ->
                client_ops tid0 (trace w0) = client_ops tid0 (trace w) ->
                tid0 <> tid -> loop_tasks w !! tid0 = Some pc0 ->
                relay_task env exe w0 tid0 pc0).
      { intros w0 tid0 pc0 Hw0 Ho Hne0 Hpc0.
        eapply relay_task_frame; [exact Ho| |by apply Rt].
        intros r pid cmd buf0 ex0 -> Hproc. exists ex0. rewrite Hw0.
        rewrite list_lookup_insert_ne; [done|].
        intros <-. apply Hne0. by eapply Rd. }
      assert (Hdist : forall pc',
                (forall r p, pc' = CLoop r p -> p = client) ->
                forall tid1 tid2 r1 r2 pid,
                  <[tid := pc']> (loop_tasks w) !! tid1 = Some (CLoop r1 pid) ->
                  <[tid := pc']> (loop_tasks w) !! tid2 = Some (CLoop r2 pid) ->
                  tid1 = tid2).
      { intros pc' Hpc' tid1 tid2 r1 r2 pid
          [(<- & H1 & _)|[Hne1 H1]]%list_lookup_insert_Some
          [(Heq & H2 & _)|[Hne2 H2]]%list_lookup_insert_Some; try done.
        - pose proof (Hpc' _ _ H1) as ->. by eapply Rd.
        - subst tid2. pose proof (Hpc' _ _ H2) as ->. symmetry. by eapply Rd.
        - by eapply Rd. }
      destruct (decode data) as [line|e] eqn:Hdec.
      * rewrite client_log_eq in Hs.
        case_bool_decide as Hnil; injection Hs as <-; split; simpl.
        -- (* end of stream *)
           subst line. apply decode_nil in Hdec as ->.
           apply take_line_nil_inv in Htl as [-> ->].
           intros tid0 pc0 [(<- & <- & _)|[Hne0 Hpc0]]%list_lookup_insert_Some.
           ++ simpl. exists data0. split; [done|]. by rewrite client_ops_self.
           ++ apply Hothers; simpl; [done | by apply client_ops_other | done | done].
        -- intros tid0 Hlen. rewrite length_insert in Hlen.
           rewrite client_ops_other by lia. by apply Rf.
        -- by apply Hdist.
        -- assert (Hlines : lines_of buf = data :: lines_of rest).
           { destruct Hbuf as [->|]; [|done]. injection Htl as <- <-.
             by injection Hdec as <-. }
           rewrite Hlines in Hscr. simpl in Hscr. rewrite Hdec in Hscr.
           intros tid0 pc0 [(<- & <- & _)|[Hne0 Hpc0]]%list_lookup_insert_Some.
           ++ simpl. exists data0, rest, exited. split_and!; [done | done |].
              rewrite !client_ops_self, <- !app_assoc. done.
           ++ apply Hothers; simpl; [done | | done | done].
              by rewrite !client_ops_other.
        -- intros tid0 Hlen. rewrite length_insert in Hlen.
           rewrite !client_ops_other by lia. by apply Rf.
        -- apply Hdist. by intros r p [= _ ->].
      * assert (Hlines : lines_of buf = data :: lines_of rest).
        { destruct Hbuf as [->|]; [|done]. injection Htl as <- <-. done. }
        rewrite Hlines in Hscr. simpl in Hscr. rewrite Hdec in Hscr.
        injection Hs as <-; split; simpl.
        -- intros tid0 pc0 [(<- & <- & _)|[Hne0 Hpc0]]%list_lookup_insert_Some.
           ++ simpl. exists data0. split; [done|]. by rewrite client_ops_self.
           ++ apply Hothers; simpl; [done | by apply client_ops_other | done | done].
        -- intros tid0 Hlen. rewrite length_insert in Hlen.
           rewrite client_ops_other by lia. by apply Rf.
        -- by apply Hdist.
  - (* a process exits *)
    unfold step in Hs.
    destruct (procs w !! pid) as [[cmd err []]|] eqn:Hp; try done.
    injection Hs as <-. split; simpl; [|done|done].
    intros tid pc Hpc. apply (relay_task_frame env exe w); [done| |by apply Rt]. simpl.
    intros r pid0 cmd0 buf ex _ Hproc. destruct (decide (pid0 = pid)) as [->|Hne].
    + rewrite Hp in Hproc. injection Hproc as -> -> <-. exists true.
      apply list_lookup_insert_eq. by eapply lookup_lt_Some.
    + exists ex. by rewrite list_lookup_insert_ne.
Qed.

Lemma relay_exec env exe sched : forall w w',
  inv env exe w -> relay env exe w -> exec env sched w = Some w' -> relay env exe w'.
Proof.
  induction sched as [|l sched IH]; intros w w' Hi Hr; simpl.
  - by intros [= <-].
  - destruct (step env l w) as [w1|] eqn:Hs; [|done].
    apply IH; [by eapply inv_step | by eapply relay_step].
Qed.

Lemma relay_main build env exe rest : relay env exe (main build rest initial).2.
Proof.
  destruct (main_world build rest) as (exe0 & args & ->). by split.
Qed.



(** ** A run that succeeds *)



(** ** The three outcomes of looking for a room ID *)

(** X14: the search for a room ID on a line has three outcomes, and the line
    alone decides which: nothing, exactly when the marker is absent; a room
    ID, exactly when the marker and an [r:] are present, and then it is the
    trimmed text after the first [r:] of the line; and [IndexError], the
    only exception it raises, exactly when the marker is present and no
    [r:] is. *)
Theorem room_id_outcomes (line : str) :
  match find_room_id line with
  | Ok None => ~ occurs room_marker line
  | Ok (Some tok) =>
      occurs room_marker line /\
      exists before after, first_cut id_marker line before after /\ trimmed_of after tok
  | Raise e =>
      e = IndexError /\ occurs room_marker line /\ ~ occurs id_marker line
  end.
Proof.
  pose proof (partition_spec line room_marker) as Hm.
  destruct (Py.partition line room_marker) as [[pre rest]|].
  - assert (Ho : occurs room_marker line) by (destruct Hm as [-> _]; by eexists _, _).
    rewrite (find_room_id_marker _ Ho).
    pose proof (partition_spec line id_marker) as Hi. cbn [Py.split].
    destruct (Py.partition line id_marker) as [[before after]|]; simpl.
    + split; [done|]. exists before, after. split; [done | apply strip_spec].
    + done.
  - by rewrite (find_room_id_no_marker _ Hm).
Qed.

(** ** What is written to the console *)

Lemma lines_of_nonempty (buf : bytes) : Forall (fun data => data <> []) (lines_of buf).
Proof.
  induction buf as [|b rest IH]; simpl; [constructor|].
  destruct (Py.byte_val b =? 10); [by constructor|].
  destruct (lines_of rest) as [|line lines]; [by repeat constructor|].
  apply Forall_cons in IH as [_ IH]. by constructor.
Qed.

Lemma host_script_print host lines : forall n s,
  OpPrint s ∈ host_script host lines n ->
  exists data line, data ∈ lines /\ decode data = Ok line /\ s = host_log line.
Proof.
  induction lines as [|data lines IH]; intros n s; simpl.
  - intros H. apply elem_of_cons in H as [H|H]; [done|].
    apply elem_of_cons in H as [H|H]; [done|]. by apply elem_of_nil in H.
  - intros H. apply elem_of_cons in H as [H|H]; [done|].
    destruct (decode data) as [line|e] eqn:Hd; [|by apply elem_of_nil in H].
    apply elem_of_cons in H as [H|H].
    { injection H as ->. exists data, line. split_and!; [by left | done | done]. }
    apply elem_of_cons in H as [H|H]; [done|].
    assert (Hrec : forall m, OpPrint s ∈ host_script host lines m ->
              exists data0 line0, data0 ∈ data :: lines /\ decode data0 = Ok line0 /\
                s = host_log line0).
    { intros m Hm. destruct (IH _ _ Hm) as (d0 & l0 & Hin & Hd0 & Hs).
      exists d0, l0. split_and!; [by right | done | done]. }
    destruct (find_room_id line) as [[id|]|e]; [| by eapply Hrec | by apply elem_of_nil in H].
    apply elem_of_cons in H as [H|H]; [done|]. by eapply Hrec.
Qed.

Lemma client_script_print pid lines s :
  OpPrint s ∈ client_script pid lines ->
  exists data line, data ∈ lines /\ decode data = Ok line /\ s = client_log line.
Proof.
  induction lines as [|data lines IH]; simpl.
  - intros H. apply elem_of_cons in H as [H|H]; [done|]. by apply elem_of_nil in H.
  - intros H. apply elem_of_cons in H as [H|H]; [done|].
    destruct (decode data) as [line|e] eqn:Hd; [|by apply elem_of_nil in H].
    apply elem_of_cons in H as [H|H].
    { injection H as ->. exists data, line. split_and!; [by left | done | done]. }
    destruct (IH H) as (d0 & l0 & Hin & Hd0 & Hs).
    exists d0, l0. split_and!; [by right | done | done].
Qed.

Lemma host_ops_elem t o : (Host, o) ∈ t -> o ∈ host_ops t.
Proof.
  intros H. unfold host_ops. apply list_elem_of_omap. by exists (Host, o).
Qed.

Lemma client_ops_elem tid t o : (Client tid, o) ∈ t -> o ∈ client_ops tid t.
Proof.
  intros H. unfold client_ops. apply list_elem_of_omap. exists (Client tid, o).
  split; [done|]. simpl. by rewrite decide_True.
Qed.

Lemma inv_host_ops_prefix env exe w :
  inv env exe w -> host_ops (trace w) `prefix_of` full_script env exe.
Proof.
  intros [He Hh Ht Hf Hl]. unfold inv_host in Hh. destruct (host_task w).
  - destruct Hh as (_ & _ & ->). apply prefix_nil.
  - destruct Hh as (_ & _ & _ & buf & exited & _ & <- & _). by eexists.
  - destruct Hh as (_ & _ & <- & _). done.
  - destruct Hh as (_ & _ & <- & _). done.
  - destruct Hh as (<- & _). done.
Qed.

Lemma relay_task_prefix env exe w tid pc :
  relay_task env exe w tid pc ->
  client_ops tid (trace w) = [] \/
  exists pid out, client_of pc = Some pid /\
    env pid (join_cmd exe (room_of pc)) = Some out /\
    client_ops tid (trace w)
      `prefix_of` OpExec (join_cmd exe (room_of pc)) pid :: client_script pid (lines_of out).
Proof.
  unfold relay_task. destruct pc as [r|r pid|r pid|r [pid|] e]; simpl; auto.
  - intros (out & buf & exited & Hd & _ & Hs). right. exists pid, out.
    split_and!; [done | done |]. rewrite <- Hs. by eexists.
  - intros (out & Hd & Hs). right. exists pid, out. by rewrite Hs.
  - intros (out & Hd & Hs). right. exists pid, out. by rewrite Hs.
Qed.

(** X3: everything the script writes to the console is a line of a child's
    stderr under its label: [run_host] writes, after the [HOST] prefix,
    decoded non-empty lines of the stderr of the host process, and a task
    writes, after the [CLIENT] prefix, decoded non-empty lines of the stderr
    of the joiner it has started.  The top level writes nothing, and the
    message of the [stderr is None] branch is never written. *)
Theorem console_only_labelled_lines build env rest w a s :
  let exe := executable_path (main build rest initial).2 in
  reachable build env rest w ->
  (a, OpPrint s) ∈ trace w ->
  exists out data line,
    data ∈ lines_of out /\ decode data = Ok line /\ line <> [] /\
    ((a = Host /\ s = host_log line /\ env 0%nat (host_cmd exe) = Some out) \/
     (exists tid pc pid,
        a = Client tid /\ s = client_log line /\
        loop_tasks w !! tid = Some pc /\ client_of pc = Some pid /\
        env pid (join_cmd exe (room_of pc)) = Some out)).
Proof.
  intros exe [sched Hex] Hin. unfold harness in Hex.
  pose proof (inv_exec _ _ _ _ _ (inv_main build env rest) Hex) as Hi. fold exe in Hi.
  pose proof (relay_exec env exe _ _ _ (inv_main build env rest)
                (relay_main build env exe rest) Hex) as [Rt Rf _].
  assert (Hne : forall out data line,
             data ∈ lines_of out -> decode data = Ok line -> line <> []).
  { intros out data line Hd Hl ->. apply decode_nil in Hl as ->.
    by apply (proj1 (Forall_forall _ _) (lines_of_nonempty out) _ Hd). }
  destruct a as [| |tid].
  - destruct (exec_effect env exe _ _ _ (inv_main build env rest) Hex)
      as (evs & Ht & Hw & _).
    destruct (main_world build rest) as (exe0 & args & Hw0).
    rewrite Hw0 in Ht. simpl in Ht. rewrite Ht in Hin.
    apply elem_of_cons in Hin as [Hin|Hin]; [done|].
    by pose proof (proj1 (Forall_forall _ _) Hw _ Hin) as Hl.
  - apply host_ops_elem in Hin.
    destruct (inv_host_ops_prefix _ _ _ Hi) as [k Hk].
    assert (Hfull : OpPrint s ∈ full_script env exe)
      by (rewrite Hk; apply elem_of_app; by left).
    unfold full_script in Hfull.
    destruct (env 0%nat (host_cmd exe)) as [out|] eqn:Henv; [|by apply elem_of_nil in Hfull].
    apply elem_of_cons in Hfull as [Hfull|Hfull]; [done|].
    destruct (host_script_print _ _ _ _ Hfull) as (data & line & Hd & Hl & ->).
    exists out, data, line. split_and!; [done | done | by eapply Hne |]. by left.
  - apply client_ops_elem in Hin.
    destruct (loop_tasks w !! tid) as [pc|] eqn:Hpc.
    2:{ apply lookup_ge_None in Hpc. rewrite (Rf _ Hpc) in Hin.
        by apply elem_of_nil in Hin. }
    destruct (relay_task_prefix _ _ _ _ _ (Rt _ _ Hpc))
      as [Hnil | (pid & out & Hc & Henv & [k Hk])].
    { rewrite Hnil in Hin. by apply elem_of_nil in Hin. }
    assert (Hfull : OpPrint s ∈ OpExec (join_cmd exe (room_of pc)) pid
                               :: client_script pid (lines_of out))
      by (rewrite Hk; apply elem_of_app; by left).
    apply elem_of_cons in Hfull as [Hfull|Hfull]; [done|].
    destruct (client_script_print _ _ _ Hfull) as (data & line & Hd & Hl & ->).
    exists out, data, line. split_and!; [done | done | by eapply Hne |].
    right. by exists tid, pc, pid.
Qed.

Lemma console_only_labelled_lines_witness :
  exists w, reachable failing_build two_rooms_env [] w /\
    (Client 1, OpPrint (client_log (lit "joined" ++ nl))) ∈ trace w /\
    exists out data line,
      data ∈ lines_of out /\ decode data = Ok line /\ line <> [] /\
      client_log (lit "joined" ++ nl) = client_log line /\
      exists pc pid, loop_tasks w !! 1%nat = Some pc /\ client_of pc = Some pid /\
        two_rooms_env pid (join_cmd debug_path (room_of pc)) = Some out.
Proof.
  destruct (harness failing_build two_rooms_env [] two_rooms_sched) as [w|] eqn:E;
    [|vm_compute in E; discriminate].
  assert (R : reachable failing_build two_rooms_env [] w) by (by exists two_rooms_sched).
  assert (Hin : (Client 1, OpPrint (client_log (lit "joined" ++ nl))) ∈ trace w).
  { vm_compute in E. injection E as <-. apply list_elem_of_In. vm_compute. tauto. }
  destruct (console_only_labelled_lines _ _ _ _ _ _ R Hin)
    as (out & data & line & Hd & Hl & Hne &
        [[Ha _]|(tid & pc & pid & Ha & Hs & Hpc & Hc & Henv)]); [discriminate Ha|].
  injection Ha as <-.
  exists w. split; [exact R|]. split; [exact Hin|].
  exists out, data, line. split; [exact Hd|]. split; [exact Hl|]. split; [exact Hne|].
  split; [exact Hs|]. exists pc, pid. split; [exact Hpc|]. split; [exact Hc | exact Henv].
Defined.
